(** * doctable_to_facts: tables of a word document as Ansible facts

    A shallow embedding of [library/doctable_to_facts.py] and the
    properties of its table scan: which tables are selected, how a row
    becomes a record, in which order records are emitted, and how the
    two failure paths of the module behave. The call is embedded
    twice: over plain values, and over a store of objects that can be
    changed in place, to tell what the call changes. *)

From stdpp Require Import gmap strings list fin_maps.

(** ** The document object model read by the module

    python-docx hands the module a [Document] with [tables], each table
    with [rows], each row with [cells], each cell with its [text]. *)

Record Cell := { text : string }.
Record Row := { cells : list Cell }.
Record Table := { rows : list Row }.
Record Document := { tables : list Table }.

(** ** Python values that occur in the module *)

(** A row record, [dict(zip(keys, text))]. *)
Abbreviation row_dict := (gmap string string).

(** The facts dictionary [tables], from the facts name to its records. *)
Abbreviation facts_dict := (gmap string (list row_dict)).

(** The second component of what [parse_tables_dict] returns: a message
    on the failure path, the [result] dictionary on the other. *)
Inductive response :=
| Message (msg : string)
| Result (result : gmap string facts_dict).

(** The exceptions the module can meet; [IOError] stands for the whole
    family that [except IOError] catches. *)
Inductive exn :=
| IOError
| TypeError
| KeyError (key : string)
| OtherError (what : string).

(** A call either returns a value or raises. *)
Inductive outcome (A : Type) :=
| Return (a : A)
| Raise (e : exn).
Arguments Return {A} a.
Arguments Raise {A} e.

(** Sequencing: a raised exception skips the rest. *)
#[global] Instance outcome_bind : MBind outcome := λ A B k c,
  match c with
  | Return a => k a
  | Raise e => Raise e
  end.

#[global] Instance exn_eq_dec : EqDecision exn.
Proof. solve_decision. Defined.

(** Values passed between the module and the framework. *)
Inductive value :=
| VBool (b : bool)
| VStr (s : string)
| VList (l : list string)
| VResult (r : gmap string facts_dict).

(** An entry of [argument_spec]. *)
Inductive arg_type := type_str | type_list.
Record arg_spec := { arg_type_of : arg_type; required : bool }.

(** How an invocation ends: the module calls [module.fail_json] or
    [module.exit_json] with keyword arguments. *)
Inductive exit :=
| fail_json (kwargs : gmap string value)
| exit_json (kwargs : gmap string value).

(** [d[key]] *)
Definition getitem {V : Type} (d : gmap string V) (key : string) : outcome V :=
  match d !! key with
  | Some v => Return v
  | None => Raise (KeyError key)
  end.

(** A parameter used as a string, and one used as a list. *)
Definition as_str (v : value) : outcome string :=
  match v with
  | VStr s => Return s
  | _ => Raise TypeError
  end.

Definition as_list (v : value) : outcome (list string) :=
  match v with
  | VList l => Return l
  | _ => Raise TypeError
  end.

Definition value_of_response (r : response) : value :=
  match r with
  | Message msg => VStr msg
  | Result result => VResult result
  end.

(** ** The table scan *)

(** [set(headers).issubset(keys)] *)
Definition issubset (headers keys : list string) : bool :=
  bool_decide (list_to_set headers ⊆@{gset string} list_to_set keys).

(** [dict(zip(keys, text))]: pairs are stored from left to right, a
    later pair replacing the value of an equal earlier key. *)
Definition setitem (d : row_dict) (kv : string * string) : row_dict :=
  <[kv.1 := kv.2]> d.

Definition dict_zip (keys row_text : list string) : row_dict :=
  foldl setitem ∅ (zip keys row_text).

(** The local variables of [parse_tables_dict] that the loops touch. *)
Record frame := {
  l_doc : Document;
  l_keys : option (list string);
  l_tables : facts_dict
}.

(** [text = (cell.text for cell in row.cells)] *)
Definition cell_texts (row : Row) : list string := text <$> cells row.

(** The body of the inner loop, for the row at position [i]. *)
Definition row_body (ansible_table_name : string) (headers : list string)
    (f : frame) (i : nat) (row : Row) : outcome frame :=
  let row_text := cell_texts row in
  if decide (i = 0) then
    Return {| l_doc := l_doc f; l_keys := Some row_text; l_tables := l_tables f |}
  else
    match l_keys f with
    | None => Raise TypeError
    | Some keys =>
        if issubset headers keys then
          let row_data := dict_zip keys row_text in
          match l_tables f !! ansible_table_name with
          | None => Raise (KeyError ansible_table_name)
          | Some records =>
              Return {| l_doc := l_doc f; l_keys := l_keys f;
                        l_tables := <[ansible_table_name := records ++ [row_data]]>
                                      (l_tables f) |}
          end
        else Return f
    end.

(** [for i, row in enumerate(table.rows)], from position [i] on. *)
Fixpoint for_rows (ansible_table_name : string) (headers : list string)
    (i : nat) (rs : list Row) (f : frame) : outcome frame :=
  match rs with
  | [] => Return f
  | row :: rs' =>
      f' ← row_body ansible_table_name headers f i row ;
      for_rows ansible_table_name headers (S i) rs' f'
  end.

(** [for table in doc.tables] *)
Fixpoint for_tables (ansible_table_name : string) (headers : list string)
    (ts : list Table) (f : frame) : outcome frame :=
  match ts with
  | [] => Return f
  | table :: ts' =>
      f' ← for_rows ansible_table_name headers 0 (rows table) f ;
      for_tables ansible_table_name headers ts' f'
  end.

(** [module_args], the [argument_spec] of the module. *)
Definition module_args : gmap string arg_spec :=
  {[ "src" := {| arg_type_of := type_str; required := true |};
     "name" := {| arg_type_of := type_str; required := true |};
     "headers" := {| arg_type_of := type_list; required := true |} ]}.

Section Invocation.

(** The environment of one invocation: whether [import docx]
    succeeded, and what [docx.Document] does with a path. *)
Variable HAS_LIB : bool.
Variable docx_Document : string → outcome Document.

Definition parse_tables_dict (input_file table_name : string)
    (headers : list string) : outcome (Z * response) :=
  let result : gmap string facts_dict := {[ "ansible_facts" := ∅ ]} in
  let tables' : facts_dict := ∅ in
  let ansible_table_name := "table_" +:+ table_name in
  let tables' := <[ansible_table_name := []]> tables' in
  match docx_Document input_file with
  | Raise IOError =>
      Return (1%Z, Message ("IOError on input file: " +:+ input_file))
  | Raise e => Raise e
  | Return doc =>
      f ← for_tables ansible_table_name headers (tables doc)
            {| l_doc := doc; l_keys := None; l_tables := tables' |} ;
      let result := <["ansible_facts" := l_tables f]> result in
      Return (0%Z, Result result)
  end.

(** The framework's constructor, called with [argument_spec] and
    [supports_check_mode]: it reads the invocation's parameters and
    either ends the invocation itself or yields [module.params]. *)
Variable AnsibleModule : gmap string arg_spec → bool → exit + gmap string value.

Definition main : outcome exit :=
  let result : gmap string value :=
    {[ "changed" := VBool false; "facts_json" := VStr EmptyString;
       "message" := VStr EmptyString ]} in
  match AnsibleModule module_args false with
  | inl ended => Return ended
  | inr params =>
      if negb HAS_LIB then
        Return (fail_json {[ "msg" := VStr "Missing required library: python-docx" ]})
      else
        src ← getitem params "src" ≫= as_str;
        name ← getitem params "name" ≫= as_str;
        headers ← getitem params "headers" ≫= as_list;
        '(ret_code, response) ← parse_tables_dict src name headers;
        if decide (ret_code = 1%Z) then
          let result := <["message" := value_of_response response]> result in
          Return (fail_json result)
        else
          let result := <["facts_json" := value_of_response response]> result in
          let result := <["message" := VStr "Done"]> result in
          Return (exit_json result)
  end.

End Invocation.

(** ** What the scan computes, table by table *)

(** The records that one table adds to the output: none when it has no
    row or its first row lacks a header, otherwise one per later row. *)
Definition table_records (headers : list string) (t : Table) : list row_dict :=
  match rows t with
  | [] => []
  | header_row :: data_rows =>
      if issubset headers (cell_texts header_row) then
        (λ row, dict_zip (cell_texts header_row) (cell_texts row)) <$> data_rows
      else []
  end.

(** The records of a sequence of tables, in the order of the tables. *)
Definition extracted (headers : list string) (ts : list Table) : list row_dict :=
  ts ≫= table_records headers.

(** The success value of [parse_tables_dict] around a list of records. *)
Definition facts_result (table_name : string) (records : list row_dict)
    : Z * response :=
  (0%Z, Result {[ "ansible_facts" := {[ "table_" +:+ table_name := records ]} ]}).

(** A frame whose keys and output list the loops have replaced. *)
Definition with_output (ansible_table_name : string) (f : frame)
    (keys : option (list string)) (records : list row_dict) : frame :=
  {| l_doc := l_doc f; l_keys := keys;
     l_tables := <[ansible_table_name := records]> (l_tables f) |}.

(** The records of a table when every table is wanted. *)
Definition data_records (t : Table) : list row_dict :=
  match rows t with
  | [] => []
  | header_row :: data_rows =>
      (λ row, dict_zip (cell_texts header_row) (cell_texts row)) <$> data_rows
  end.

(** The list that a successful call returns under its facts name. *)
Definition records_of (table_name : string) (o : outcome (Z * response))
    : option (list row_dict) :=
  match o with
  | Return (_, Result result) =>
      facts ← result !! "ansible_facts"; facts !! ("table_" +:+ table_name)
  | _ => None
  end.

(** ** A framework that enforces [required]

    One behaviour the constructor can have: it ends the invocation when
    a parameter that [argument_spec] requires was not given, and hands
    the given parameters to the module otherwise. *)

Definition missing_arguments (argument_spec : gmap string arg_spec)
    (given : gmap string value) : list string :=
  filter (λ k, given !! k = None)
         (map_to_list (filter (λ kv, required kv.2 = true) argument_spec)).*1.

Definition checking_required (given : gmap string value)
    (argument_spec : gmap string arg_spec) (supports_check_mode : bool)
    : exit + gmap string value :=
  match missing_arguments argument_spec given with
  | [] => inr given
  | missing =>
      inl (fail_json {[ "msg" := VStr ("missing required arguments: "
                                        +:+ String.concat ", " missing) ]})
  end.

(** ** Sample documents *)

Definition mk_row (texts : list string) : Row :=
  {| cells := Build_Cell <$> texts |}.

Definition mk_table (texts : list (list string)) : Table :=
  {| rows := mk_row <$> texts |}.

Definition routes : Table :=
  mk_table [ ["Destination"; "NextHop"];
             ["10.0.0.0/8"; "192.168.1.1"];
             ["0.0.0.0/0"; "192.168.1.254"] ].

Definition routes_with_metric : Table :=
  mk_table [ ["Metric"; "NextHop"; "Destination"];
             ["10"; "192.168.7.1"; "172.16.0.0/12"] ].

Definition zones : Table :=
  mk_table [ ["Zone"; "ZoneProtectionProfile"];
             ["trust"; "strict"] ].

Definition ragged : Table :=
  mk_table [ ["Destination"; "NextHop"];
             ["10.1.0.0/16"];
             ["10.2.0.0/16"; "192.168.2.1"; "spare"] ].

Definition repeated_header : Table :=
  mk_table [ ["Port"; "Port"; "Speed"];
             ["eth0"; "eth1"; "1G"] ].

Definition no_rows : Table := mk_table [].

Definition test_document : Document :=
  {| tables := [routes; zones; no_rows; routes_with_metric; ragged] |}.

(** A file system with one readable document. *)
Definition test_docx (input_file : string) : outcome Document :=
  if decide (input_file = "test_document.docx") then Return test_document
  else Raise IOError.

(** Parameters that name the sample document. *)
Definition sample_params : gmap string value :=
  {[ "src" := VStr "test_document.docx";
     "name" := VStr "routes";
     "headers" := VList ["Destination"; "NextHop"] ]}.

(** The keyword arguments of the failure for a missing python-docx. *)
Definition missing_library : gmap string value :=
  {[ "msg" := VStr "Missing required library: python-docx" ]}.

(** The frame while the data rows of [ragged] are scanned, nothing
    stored yet. *)
Definition sample_frame : frame :=
  {| l_doc := test_document;
     l_keys := Some ["Destination"; "NextHop"];
     l_tables := {[ "table_routes" := [] ]} |}.

(** The frame while the data row of [repeated_header] is scanned. *)
Definition ports_frame : frame :=
  {| l_doc := {| tables := [repeated_header] |};
     l_keys := Some ["Port"; "Port"; "Speed"];
     l_tables := {[ "table_ports" := [] ]} |}.

(** The keyword arguments an invocation ends with. *)
Definition kwargs_of (e : exit) : gmap string value :=
  match e with
  | fail_json kwargs => kwargs
  | exit_json kwargs => kwargs
  end.

(** A file system in which opening a document fails, but not with an
    IOError. *)
Definition broken_docx (input_file : string) : outcome Document :=
  Raise (OtherError "PackageNotFoundError").

(** A file system with the sample document and its two halves. *)
Definition shelf_docx (input_file : string) : outcome Document :=
  if decide (input_file = "first.docx") then
    Return {| tables := [routes; zones] |}
  else if decide (input_file = "second.docx") then
    Return {| tables := [no_rows; routes_with_metric; ragged] |}
  else if decide (input_file = "both.docx") then
    Return test_document
  else Raise IOError.

(** A file system whose document has no row shorter than its header. *)
Definition regular_docx (input_file : string) : outcome Document :=
  Return {| tables := [routes; zones; no_rows; routes_with_metric] |}.

(** ** The same call over a store of objects

    Python objects have identity and can be changed in place. Here the
    lists and dictionaries of [parse_tables_dict] live in a store, as
    do the list of headers it is given and the document it opens, so
    that what the call changes and what it leaves alone can be told. *)

Module Heap.

(** What a variable, a list item or a dictionary value holds: a string,
    which cannot change, or a reference to an object in the store. *)
Inductive pyval :=
| Str (s : string)
| Ref (l : nat).

Inductive pyobj :=
| PyList (items : list pyval)
| PyDict (entries : gmap string pyval)
| PyDocument (tables : list nat)
| PyTable (rows : list nat)
| PyRow (cells : list nat)
| PyCell (text : string).

(** The store: an object is referred to by its position, and a new
    object is put at the end. *)
Abbreviation heap := (list pyobj).

(** A computation runs on a store and leaves a store, also when it
    raises. *)
Definition run (A : Type) : Type := heap → outcome A * heap.

#[global] Instance run_ret : MRet run := λ A a h, (Return a, h).

#[global] Instance run_bind : MBind run := λ A B k c h,
  match c h with
  | (Return a, h') => k a h'
  | (Raise e, h') => (Raise e, h')
  end.

Definition raise {A : Type} (e : exn) : run A := λ h, (Raise e, h).

Definition alloc (o : pyobj) : run nat := λ h, (Return (length h), h ++ [o]).

Definition load (l : nat) : run pyobj := λ h,
  match h !! l with
  | Some o => (Return o, h)
  | None => (Raise (OtherError "no such object"), h)
  end.

Definition store (l : nat) (o : pyobj) : run unit := λ h,
  (Return (), <[l := o]> h).

(** [d[key] = v] *)
Definition dict_setitem (d : nat) (key : string) (v : pyval) : run unit :=
  o ← load d;
  match o with
  | PyDict entries => store d (PyDict (<[key := v]> entries))
  | _ => raise TypeError
  end.

(** [d[key]] *)
Definition dict_getitem (d : nat) (key : string) : run pyval :=
  o ← load d;
  match o with
  | PyDict entries =>
      match entries !! key with
      | Some v => mret v
      | None => raise (KeyError key)
      end
  | _ => raise TypeError
  end.

(** [l.append(v)] *)
Definition list_append (l v : pyval) : run unit :=
  match l with
  | Ref a =>
      o ← load a;
      match o with
      | PyList items => store a (PyList (items ++ [v]))
      | _ => raise (OtherError "AttributeError")
      end
  | Str _ => raise (OtherError "AttributeError")
  end.

(** [doc.tables], [table.rows], [row.cells] and [cell.text] *)
Definition get_tables (doc : nat) : run (list nat) :=
  o ← load doc;
  match o with
  | PyDocument ts => mret ts
  | _ => raise (OtherError "AttributeError")
  end.

Definition get_rows (table : nat) : run (list nat) :=
  o ← load table;
  match o with
  | PyTable rs => mret rs
  | _ => raise (OtherError "AttributeError")
  end.

Definition get_cells (row : nat) : run (list nat) :=
  o ← load row;
  match o with
  | PyRow cs => mret cs
  | _ => raise (OtherError "AttributeError")
  end.

Definition get_text (cell : nat) : run string :=
  o ← load cell;
  match o with
  | PyCell s => mret s
  | _ => raise (OtherError "AttributeError")
  end.

(** The strings of a list of strings. *)
Definition str_items (items : list pyval) : option (list string) :=
  mapM (λ v, match v with Str s => Some s | Ref _ => None end) items.

(** [set(headers)], for [headers] a list of strings in the store. *)
Definition set_of (headers : nat) : run (list string) :=
  o ← load headers;
  match o with
  | PyList items =>
      match str_items items with
      | Some wanted => mret wanted
      | None => raise TypeError
      end
  | _ => raise TypeError
  end.

(** The body of the inner loop. [row.cells] is read when the generator
    [text] is made; the texts are read when it is consumed, all of them
    by [tuple(text)] and as many as there are keys by [zip]. *)
Definition row_body (tables : nat) (ansible_table_name : string)
    (headers : nat) (keys : option (list string)) (i : nat) (row : nat)
    : run (option (list string)) :=
  cs ← get_cells row;
  if decide (i = 0) then
    row_text ← mapM get_text cs;
    mret (Some row_text)
  else
    wanted ← set_of headers;
    match keys with
    | None => raise TypeError
    | Some ks =>
        if issubset wanted ks then
          row_text ← mapM get_text (take (length ks) cs);
          row_data ← alloc (PyDict (Str <$> dict_zip ks row_text));
          records ← dict_getitem tables ansible_table_name;
          list_append records (Ref row_data);;
          mret keys
        else mret keys
    end.

Fixpoint for_rows (tables : nat) (ansible_table_name : string) (headers : nat)
    (i : nat) (rs : list nat) (keys : option (list string))
    : run (option (list string)) :=
  match rs with
  | [] => mret keys
  | row :: rs' =>
      keys' ← row_body tables ansible_table_name headers keys i row;
      for_rows tables ansible_table_name headers (S i) rs' keys'
  end.

Fixpoint for_tables (tables : nat) (ansible_table_name : string)
    (headers : nat) (ts : list nat) (keys : option (list string))
    : run (option (list string)) :=
  match ts with
  | [] => mret keys
  | table :: ts' =>
      rs ← get_rows table;
      keys' ← for_rows tables ansible_table_name headers 0 rs keys;
      for_tables tables ansible_table_name headers ts' keys'
  end.

(** [try: c except IOError: return on_error], and [k] after it. *)
Definition try_except_IOError {A B : Type} (c : run A) (on_error : run B)
    (k : A → run B) : run B := λ h,
  match c h with
  | (Raise IOError, h') => on_error h'
  | (Raise e, h') => (Raise e, h')
  | (Return a, h') => k a h'
  end.

Section Invocation.

(** [docx.Document]: it may put new objects into the store. *)
Variable docx_Document : string → run nat.

Definition parse_tables_dict (input_file table_name : string) (headers : nat)
    : run (Z * pyval) :=
  facts ← alloc (PyDict ∅);
  result ← alloc (PyDict {[ "ansible_facts" := Ref facts ]});
  tables ← alloc (PyDict ∅);
  let ansible_table_name := "table_" +:+ table_name in
  records ← alloc (PyList []);
  dict_setitem tables ansible_table_name (Ref records);;
  try_except_IOError (docx_Document input_file)
    (mret (1%Z, Str ("IOError on input file: " +:+ input_file)))
    (λ doc,
       ts ← get_tables doc;
       for_tables tables ansible_table_name headers ts None;;
       dict_setitem result "ansible_facts" (Ref tables);;
       mret (0%Z, Ref result)).

End Invocation.

(** *** Reading the store *)

(** The document that the objects under a reference make up. *)
Definition read_cell (h : heap) (c : nat) : option Cell :=
  match h !! c with
  | Some (PyCell s) => Some {| text := s |}
  | _ => None
  end.

Definition read_row (h : heap) (r : nat) : option Row :=
  match h !! r with
  | Some (PyRow cs) => Build_Row <$> mapM (read_cell h) cs
  | _ => None
  end.

Definition read_table (h : heap) (t : nat) : option Table :=
  match h !! t with
  | Some (PyTable rs) => Build_Table <$> mapM (read_row h) rs
  | _ => None
  end.

Definition read_document (h : heap) (d : nat) : option Document :=
  match h !! d with
  | Some (PyDocument ts) => Build_Document <$> mapM (read_table h) ts
  | _ => None
  end.

(** The strings of the list of strings under a reference. *)
Definition read_strs (h : heap) (l : nat) : option (list string) :=
  match h !! l with
  | Some (PyList items) => str_items items
  | _ => None
  end.

(** A value of the store shows a value without references when the
    objects under it have the same shape and the same strings. *)
Definition shows_record (h : heap) (v : pyval) (row_data : row_dict) : Prop :=
  ∃ d, v = Ref d ∧ h !! d = Some (PyDict (Str <$> row_data)).

Definition shows_records (h : heap) (v : pyval) (records : list row_dict) : Prop :=
  ∃ l items,
    v = Ref l ∧ h !! l = Some (PyList items)
    ∧ Forall2 (shows_record h) items records.

Definition shows_facts (h : heap) (v : pyval) (facts : facts_dict) : Prop :=
  ∃ t entries,
    v = Ref t ∧ h !! t = Some (PyDict entries)
    ∧ ∀ name, option_Forall2 (shows_records h) (entries !! name) (facts !! name).

Definition shows (h : heap) (v : pyval) (r : response) : Prop :=
  match r with
  | Message msg => v = Str msg
  | Result result =>
      ∃ d entries,
        v = Ref d ∧ h !! d = Some (PyDict entries)
        ∧ ∀ key, option_Forall2 (shows_facts h) (entries !! key) (result !! key)
  end.

(** The second store has every document object of the first, as it
    was. A document, a table, a row and a cell carry what belongs to
    them, so these are all the objects that a document is made of. *)
Definition keeps_document (h h' : heap) : Prop :=
  ∀ l o, h !! l = Some o →
    match o with
    | PyList _ | PyDict _ => True
    | _ => h' !! l = Some o
    end.

(** The second store is the first with the object at [l] possibly
    replaced and with objects added. *)
Definition same_but (l : nat) (h h' : heap) : Prop :=
  length h ≤ length h'
  ∧ ∀ l', l' < length h → l' ≠ l → h' !! l' = h !! l'.

(** What holds of the store between two rows of the scan: the headers
    are still the wanted ones, the dictionary [tables] has the one
    entry it was given, and the list under it shows the records found
    so far. *)
Definition scan_inv (tables : nat) (ansible_table_name : string)
    (records headers : nat) (wanted : list string)
    (h : heap) (found : list row_dict) : Prop :=
  read_strs h headers = Some wanted
  ∧ h !! tables = Some (PyDict {[ ansible_table_name := Ref records ]})
  ∧ shows_records h (Ref records) found.

(** *** A loader for the samples

    It puts the objects of a given document into the store, cells
    before their row, rows before their table, tables before the
    document. *)

Definition new_cell (c : Cell) : run nat := alloc (PyCell (text c)).

Definition new_row (r : Row) : run nat :=
  cs ← mapM new_cell (cells r); alloc (PyRow cs).

Definition new_table (t : Table) : run nat :=
  rs ← mapM new_row (rows t); alloc (PyTable rs).

Definition new_document (doc : Document) : run nat :=
  ts ← mapM new_table (tables doc); alloc (PyDocument ts).

End Heap.

(** A store that holds a list of wanted headers and something else. *)
Definition sample_heap : Heap.heap :=
  [ Heap.PyList [Heap.Str "NextHop"; Heap.Str "Destination"];
    Heap.PyDict {[ "metadata_version" := Heap.Str "1.1" ]} ].

(** A loader that makes the objects of the sample document anew each
    time a path is opened. *)
Definition fresh_docx (input_file : string) : Heap.run nat :=
  Heap.new_document test_document.

(** ** Facts about [dict(zip(keys, text))] *)

Section Dict.

Implicit Types (l : list (string * string)) (d : row_dict) (k v : string).

Lemma setitem_pairs_dom l :
  dom (foldl setitem ∅ l) = list_to_set l.*1.
Proof.
  induction l as [|kv l IH] using rev_ind; simpl.
  - apply dom_empty_L.
  - rewrite foldl_snoc, fmap_app, list_to_set_app_L. unfold setitem at 1.
    rewrite dom_insert_L, IH. simpl.
    rewrite (right_id_L ∅ (∪)). apply (comm_L (∪)).
Qed.

(** A pair that no later pair shadows is what the dictionary holds. *)
Lemma setitem_pairs_last l d i k v :
  l !! i = Some (k, v) →
  (∀ j v', i < j → l !! j ≠ Some (k, v')) →
  foldl setitem d l !! k = Some v.
Proof.
  induction l as [|[k' v'] l IH] using rev_ind; intros Hi Hlater.
  - by rewrite lookup_nil in Hi.
  - rewrite foldl_snoc. unfold setitem at 1. simpl.
    destruct (decide (i = length l)) as [->|Hne].
    + rewrite lookup_app_r, Nat.sub_diag in Hi by lia.
      injection Hi as -> ->. apply lookup_insert_eq.
    + assert (i < length l) as Hlt.
      { apply lookup_lt_Some in Hi. rewrite length_app in Hi. simpl in Hi. lia. }
      rewrite lookup_app_l in Hi by done.
      rewrite lookup_insert_ne.
      * apply IH; [done|]. intros j w Hj Hjw.
        apply (Hlater j w Hj). rewrite lookup_app_l; [done|].
        by apply lookup_lt_Some in Hjw.
      * intros ->. apply (Hlater (length l) v' Hlt).
        by rewrite lookup_app_r, Nat.sub_diag by lia.
Qed.

(** Every entry of the dictionary is the last pair stored under its key. *)
Lemma setitem_pairs_origin l k v :
  foldl setitem ∅ l !! k = Some v →
  ∃ i, l !! i = Some (k, v) ∧ ∀ j v', i < j → l !! j ≠ Some (k, v').
Proof.
  induction l as [|[k' v'] l IH] using rev_ind; intros Hk.
  - simpl in Hk. by rewrite lookup_empty in Hk.
  - rewrite foldl_snoc in Hk. unfold setitem at 1 in Hk. simpl in Hk.
    destruct (decide (k' = k)) as [->|Hne].
    + rewrite lookup_insert_eq in Hk. injection Hk as ->.
      exists (length l). split.
      * by rewrite lookup_app_r, Nat.sub_diag by lia.
      * intros j w Hj Hjw. apply lookup_lt_Some in Hjw.
        rewrite length_app in Hjw. simpl in Hjw. lia.
    + rewrite lookup_insert_ne in Hk by done.
      destruct (IH Hk) as (i & Hi & Hlater).
      exists i. split.
      * rewrite lookup_app_l; [done|]. by apply lookup_lt_Some in Hi.
      * intros j w Hj Hjw.
        destruct (decide (j < length l)) as [Hlt|Hge].
        -- rewrite lookup_app_l in Hjw by done. by apply (Hlater j w).
        -- rewrite lookup_app_r in Hjw by lia.
           destruct (j - length l) as [|n]; simpl in Hjw; [|done].
           congruence.
Qed.

End Dict.

(** A list has at least as many positions as distinct elements, and
    more when an element stands at two of them. *)
Lemma size_list_to_set_cons (x : string) (l : list string) :
  size (list_to_set (x :: l) : gset string) ≤ S (size (list_to_set l : gset string)).
Proof.
  rewrite list_to_set_cons, size_union_alt, size_singleton.
  apply le_n_S, subseteq_size. intros y Hy.
  by apply elem_of_difference in Hy as [Hy _].
Qed.

Lemma size_list_to_set_le (l : list string) :
  size (list_to_set l : gset string) ≤ length l.
Proof.
  induction l as [|x l IH].
  - by rewrite list_to_set_nil, size_empty.
  - etrans; [apply size_list_to_set_cons|]. simpl. lia.
Qed.

Lemma size_list_to_set_repeated (l : list string) : ∀ i j k,
  i < j → l !! i = Some k → l !! j = Some k →
  size (list_to_set l : gset string) < length l.
Proof.
  induction l as [|x l IH]; intros i j k Hij Hi Hj.
  - by rewrite lookup_nil in Hi.
  - destruct j as [|j]; [lia|]. simpl in Hj. destruct i as [|i].
    + injection Hi as ->.
      assert (list_to_set (k :: l) = (list_to_set l : gset string)) as ->.
      { rewrite list_to_set_cons. apply subseteq_union_1_L. intros y Hy.
        apply elem_of_singleton in Hy as ->.
        apply elem_of_list_to_set, list_elem_of_lookup. by exists j. }
      pose proof (size_list_to_set_le l). simpl. lia.
    + simpl in Hi. pose proof (IH i j k ltac:(lia) Hi Hj).
      pose proof (size_list_to_set_cons x l). simpl in *. lia.
Qed.

(** The key and text lists as [zip] pairs them. *)
Lemma zip_keys_paired (keys row_text : list string) :
  (zip keys row_text).*1 = take (length keys `min` length row_text) keys.
Proof.
  revert row_text. induction keys as [|k keys IH]; intros [|v row_text]; simpl;
    try done.
  by rewrite IH.
Qed.

Lemma dict_zip_shorter keys row_text :
  let n := length keys `min` length row_text in
  dict_zip keys row_text = dict_zip (take n keys) (take n row_text).
Proof.
  intros n. unfold dict_zip.
  by rewrite (zip_with_take_both' pair n n keys row_text).
Qed.

Lemma dict_zip_dom keys row_text :
  dom (dict_zip keys row_text) =
    list_to_set (take (length keys `min` length row_text) keys).
Proof. unfold dict_zip. by rewrite setitem_pairs_dom, zip_keys_paired. Qed.

Lemma dict_zip_origin keys row_text k v :
  dict_zip keys row_text !! k = Some v →
  ∃ j, j < length keys `min` length row_text
       ∧ keys !! j = Some k ∧ row_text !! j = Some v.
Proof.
  intros Hk. apply setitem_pairs_origin in Hk as (j & Hj & _).
  apply lookup_zip_Some in Hj as [Hkey Hval]. exists j.
  apply lookup_lt_Some in Hkey as Hlt1. apply lookup_lt_Some in Hval as Hlt2.
  split; [lia|done].
Qed.

Lemma dict_zip_last keys row_text j k v :
  keys !! j = Some k →
  row_text !! j = Some v →
  (∀ j', j < j' → j' < length keys `min` length row_text →
         keys !! j' ≠ Some k) →
  dict_zip keys row_text !! k = Some v.
Proof.
  intros Hkey Hval Hlater. apply setitem_pairs_last with j.
  - by apply lookup_zip_Some.
  - intros j' v' Hlt Hj'. apply lookup_zip_Some in Hj' as [Hkey' Hval'].
    apply (Hlater j'); [done| |done].
    apply lookup_lt_Some in Hkey'. apply lookup_lt_Some in Hval'. lia.
Qed.

(** ** The loops, run symbolically *)

Section Scan.

Variable ansible_table_name : string.
Variable headers : list string.

Implicit Types (f : frame) (records : list row_dict).

Lemma with_output_same f records :
  l_tables f !! ansible_table_name = Some records →
  with_output ansible_table_name f (l_keys f) records = f.
Proof.
  intros Hout. destruct f as [d ks ts]. unfold with_output. simpl in *.
  by rewrite insert_id.
Qed.

Lemma with_output_twice f ks1 ks2 records1 records2 :
  with_output ansible_table_name
    (with_output ansible_table_name f ks1 records1) ks2 records2 =
  with_output ansible_table_name f ks2 records2.
Proof. unfold with_output. simpl. by rewrite insert_insert_eq. Qed.

Lemma with_output_lookup f ks records :
  l_tables (with_output ansible_table_name f ks records) !! ansible_table_name =
    Some records.
Proof. apply lookup_insert_eq. Qed.

(** A data row: appended when the headers are all among the keys. *)
Lemma row_body_data f i row keys records :
  i ≠ 0 →
  l_keys f = Some keys →
  l_tables f !! ansible_table_name = Some records →
  row_body ansible_table_name headers f i row =
    Return (with_output ansible_table_name f (Some keys)
              (records ++ if issubset headers keys
                          then [dict_zip keys (cell_texts row)] else [])).
Proof.
  intros Hi Hkeys Hout. unfold row_body.
  destruct (decide (i = 0)) as [|_]; [done|].
  rewrite Hkeys. destruct (issubset headers keys).
  - by rewrite Hout.
  - rewrite app_nil_r, <- Hkeys. by rewrite with_output_same.
Qed.

(** The rows after the first. *)
Lemma for_rows_data rs : ∀ f i keys records,
  i ≠ 0 →
  l_keys f = Some keys →
  l_tables f !! ansible_table_name = Some records →
  for_rows ansible_table_name headers i rs f =
    Return (with_output ansible_table_name f (Some keys)
              (records ++ if issubset headers keys
                          then (λ row, dict_zip keys (cell_texts row)) <$> rs
                          else [])).
Proof.
  induction rs as [|row rs IH]; intros f i keys records Hi Hkeys Hout; simpl.
  - rewrite <- Hkeys, with_output_same; [done|].
    by destruct (issubset headers keys); rewrite app_nil_r.
  - rewrite (row_body_data f i row keys records) by done. simpl.
    erewrite (IH _ (S i) keys); [|lia|done|apply with_output_lookup].
    rewrite with_output_twice.
    destruct (issubset headers keys); simpl.
    + by rewrite <- app_assoc.
    + by rewrite !app_nil_r.
Qed.

(** One table: its first row becomes [keys], the others are data. *)
Lemma for_rows_table t f records :
  l_tables f !! ansible_table_name = Some records →
  for_rows ansible_table_name headers 0 (rows t) f =
    Return (with_output ansible_table_name f
              (match rows t with
               | [] => l_keys f
               | header_row :: _ => Some (cell_texts header_row)
               end)
              (records ++ table_records headers t)).
Proof.
  intros Hout. unfold table_records.
  destruct (rows t) as [|header_row data_rows]; simpl.
  - by rewrite app_nil_r, with_output_same.
  - set (f1 := {| l_doc := l_doc f; l_keys := Some (cell_texts header_row);
                  l_tables := l_tables f |}).
    rewrite (for_rows_data data_rows f1 1 (cell_texts header_row) records)
      by done.
    done.
Qed.

(** All tables: the output list grows by the records of each, in turn. *)
Lemma for_tables_extracted ts : ∀ f records,
  l_tables f !! ansible_table_name = Some records →
  ∃ keys,
    for_tables ansible_table_name headers ts f =
      Return (with_output ansible_table_name f keys (records ++ extracted headers ts)).
Proof.
  induction ts as [|t ts IH]; intros f records Hout; simpl.
  - exists (l_keys f). unfold extracted. simpl.
    by rewrite app_nil_r, with_output_same.
  - rewrite (for_rows_table t f records Hout). simpl.
    destruct (IH (with_output ansible_table_name f
                    (match rows t with
                     | [] => l_keys f
                     | header_row :: _ => Some (cell_texts header_row)
                     end)
                    (records ++ table_records headers t))
                 _ (with_output_lookup _ _ _)) as [keys ->].
    exists keys. rewrite with_output_twice. unfold extracted.
    change ((t :: ts) ≫= table_records headers)
      with (table_records headers t ++ ts ≫= table_records headers).
    by rewrite <- app_assoc.
Qed.

End Scan.

(** ** The whole call *)

Section Call.

Variable docx_Document : string → outcome Document.

(** Once the document is open the call cannot fail, and its value is
    the facts envelope around the records of the tables. *)
Lemma parse_tables_dict_opened input_file table_name headers doc :
  docx_Document input_file = Return doc →
  parse_tables_dict docx_Document input_file table_name headers =
    Return (facts_result table_name (extracted headers (tables doc))).
Proof.
  intros Hopen. unfold parse_tables_dict, facts_result. rewrite Hopen.
  set (name := "table_" +:+ table_name).
  set (f0 := {| l_doc := doc; l_keys := None; l_tables := <[name := []]> ∅ |}).
  destruct (for_tables_extracted name headers (tables doc) f0 [])
    as [keys ->]; [apply lookup_insert_eq|].
  simpl. rewrite insert_insert_eq, insert_singleton_eq.
  by rewrite insert_empty.
Qed.

End Call.

(** The example of a route table with two routes. *)
Example routes_example :
  parse_tables_dict (λ _, Return {| tables := [routes] |})
    "test_document.docx" "routes" ["Destination"; "NextHop"] =
  Return (0%Z, Result {[ "ansible_facts" := {[ "table_routes" :=
    [ {[ "Destination" := "10.0.0.0/8"; "NextHop" := "192.168.1.1" ]};
      {[ "Destination" := "0.0.0.0/0"; "NextHop" := "192.168.1.254" ]} ] ]} ]}).
Proof. vm_compute. reflexivity. Qed.

(** ** The entry point *)

Section Main.

Variable docx_Document : string → outcome Document.
Variable AnsibleModule : gmap string arg_spec → bool → exit + gmap string value.
Variable params : gmap string value.
Variables (src name : string) (headers : list string).

Hypothesis accepted : AnsibleModule module_args false = inr params.
Hypothesis given_src : params !! "src" = Some (VStr src).
Hypothesis given_name : params !! "name" = Some (VStr name).
Hypothesis given_headers : params !! "headers" = Some (VList headers).

Lemma main_calls_parse_tables_dict :
  main true docx_Document AnsibleModule =
    '(ret_code, response) ← parse_tables_dict docx_Document src name headers;
    if decide (ret_code = 1%Z) then
      Return (fail_json {[ "changed" := VBool false;
                           "facts_json" := VStr EmptyString;
                           "message" := value_of_response response ]})
    else
      Return (exit_json {[ "changed" := VBool false;
                           "facts_json" := value_of_response response;
                           "message" := VStr "Done" ]}).
Proof.
  unfold main, getitem. rewrite accepted, given_src, given_name, given_headers.
  simpl. destruct (parse_tables_dict docx_Document src name headers)
    as [[ret_code response]|e]; simpl; [|done].
  by destruct (decide (ret_code = 1%Z)).
Qed.

(** A document that cannot be read: the invocation fails with the
    message of [parse_tables_dict] and [facts_json] left empty. *)
Lemma main_unreadable_document :
  docx_Document src = Raise IOError →
  main true docx_Document AnsibleModule =
    Return (fail_json {[ "changed" := VBool false;
                         "facts_json" := VStr EmptyString;
                         "message" := VStr ("IOError on input file: " +:+ src) ]}).
Proof.
  intros Hopen. rewrite main_calls_parse_tables_dict.
  unfold parse_tables_dict. by rewrite Hopen.
Qed.

(** A document that opens: the invocation ends with the facts and the
    message [Done]. *)
Lemma main_done doc :
  docx_Document src = Return doc →
  main true docx_Document AnsibleModule =
    Return (exit_json {[ "changed" := VBool false;
                         "facts_json" :=
                           VResult {[ "ansible_facts" :=
                             {[ "table_" +:+ name :=
                                  extracted headers (tables doc) ]} ]};
                         "message" := VStr "Done" ]}).
Proof.
  intros Hopen. rewrite main_calls_parse_tables_dict.
  by rewrite (parse_tables_dict_opened _ _ _ _ _ Hopen).
Qed.

End Main.

Lemma dict_zip_size_repeated keys row_text i j k :
  i < j →
  keys !! i = Some k →
  keys !! j = Some k →
  j < length row_text →
  size (dict_zip keys row_text) < length keys `min` length row_text.
Proof.
  intros Hij Hi Hj Hlen. apply lookup_lt_Some in Hj as Hjk.
  set (n := length keys `min` length row_text).
  rewrite <- (size_dom (D:=gset string)), dict_zip_dom. fold n.
  replace n with (length (take n keys)) at 2
    by (rewrite length_take; unfold n; lia).
  apply size_list_to_set_repeated with i j k; [done| |];
    apply lookup_take_Some; (split; [done|unfold n; lia]).
Qed.

(** ** Properties of the extraction *)

Lemma extracted_app headers ts1 ts2 :
  extracted headers (ts1 ++ ts2) = extracted headers ts1 ++ extracted headers ts2.
Proof. apply bind_app. Qed.

Lemma extracted_cons headers t ts :
  extracted headers (t :: ts) = table_records headers t ++ extracted headers ts.
Proof. done. Qed.

Lemma issubset_spec headers keys :
  issubset headers keys = true ↔
  list_to_set headers ⊆@{gset string} list_to_set keys.
Proof. unfold issubset. by rewrite bool_decide_eq_true. Qed.

(** Settles that the wanted headers are among given keys by running
    the test. *)
Ltac headers_among_keys := apply issubset_spec; vm_compute; reflexivity.

(** The call on a document in which [t] stands between two runs of
    tables: the records of [t] stand between the records of the runs. *)
Lemma parse_tables_dict_around docx_Document input_file table_name headers
    doc before t after :
  docx_Document input_file = Return doc →
  tables doc = before ++ t :: after →
  parse_tables_dict docx_Document input_file table_name headers =
    Return (facts_result table_name
              (extracted headers before ++ table_records headers t
                 ++ extracted headers after)).
Proof.
  intros Hopen Hts.
  rewrite (parse_tables_dict_opened _ _ _ _ _ Hopen), Hts.
  by rewrite extracted_app, extracted_cons.
Qed.

(** C1. A table between any earlier and later tables adds its data
    rows to the output exactly when every wanted header is among the
    cell texts of its first row. If they all are, the table adds one
    record for each data row, the i-th data row giving the i-th of
    them, also when the first row has further texts. If one is
    missing, the table adds no record at all. Either way the records of
    the later tables follow. *)
Theorem table_selected_iff_headers_subset docx_Document input_file table_name
    headers doc before t after :
  docx_Document input_file = Return doc →
  tables doc = before ++ t :: after →
  ∃ added,
    parse_tables_dict docx_Document input_file table_name headers =
      Return (facts_result table_name
                (extracted headers before ++ added ++ extracted headers after))
    ∧ match rows t with
      | [] => added = []
      | header_row :: data_rows =>
          (list_to_set headers ⊆@{gset string} list_to_set (cell_texts header_row)
           → added =
               (λ row, dict_zip (cell_texts header_row) (cell_texts row))
                 <$> data_rows)
          ∧ (¬ list_to_set headers
                 ⊆@{gset string} list_to_set (cell_texts header_row)
             → added = [])
          ∧ length added ≤ length data_rows
          ∧ ∀ i row, data_rows !! i = Some row →
              (added !! i =
                 Some (dict_zip (cell_texts header_row) (cell_texts row))
               ↔ list_to_set headers
                   ⊆@{gset string} list_to_set (cell_texts header_row))
      end.
Proof.
  intros Hopen Hts. exists (table_records headers t). split.
  - by apply parse_tables_dict_around with doc.
  - unfold table_records.
    destruct (rows t) as [|header_row data_rows]; [done|].
    destruct (issubset headers (cell_texts header_row)) eqn:Hsub.
    + apply issubset_spec in Hsub. split; [done|]. split; [done|]. split.
      * by rewrite length_fmap.
      * intros i row Hrow. rewrite list_lookup_fmap, Hrow. by split.
    + assert (¬ list_to_set headers
                  ⊆@{gset string} list_to_set (cell_texts header_row)) as Hnot.
      { intros Hin. apply issubset_spec in Hin. congruence. }
      split; [done|]. split; [done|]. split; [simpl; lia|].
      intros i row Hrow. by split.
Qed.

Lemma table_selected_iff_headers_subset_witness :
  test_docx "test_document.docx" = Return test_document
  ∧ tables test_document = [routes; zones; no_rows] ++ routes_with_metric :: [ragged]
  ∧ ∃ added,
      parse_tables_dict test_docx "test_document.docx" "routes"
        ["Destination"; "NextHop"] =
        Return (facts_result "routes"
                  (extracted ["Destination"; "NextHop"] [routes; zones; no_rows]
                     ++ added ++ extracted ["Destination"; "NextHop"] [ragged]))
      ∧ match rows routes_with_metric with
        | [] => added = []
        | header_row :: data_rows =>
            (list_to_set ["Destination"; "NextHop"]
               ⊆@{gset string} list_to_set (cell_texts header_row)
             → added =
                 (λ row, dict_zip (cell_texts header_row) (cell_texts row))
                   <$> data_rows)
            ∧ (¬ list_to_set ["Destination"; "NextHop"]
                   ⊆@{gset string} list_to_set (cell_texts header_row)
               → added = [])
            ∧ length added ≤ length data_rows
            ∧ ∀ i row, data_rows !! i = Some row →
                (added !! i =
                   Some (dict_zip (cell_texts header_row) (cell_texts row))
                 ↔ list_to_set ["Destination"; "NextHop"]
                     ⊆@{gset string} list_to_set (cell_texts header_row))
        end.
Proof.
  split; [reflexivity|]. split; [reflexivity|].
  apply (table_selected_iff_headers_subset test_docx "test_document.docx"
           "routes" ["Destination"; "NextHop"] test_document
           [routes; zones; no_rows] routes_with_metric [ragged]);
    reflexivity.
Defined.

(** C2. When opening the document raises IOError, the call returns
    code 1 with a message that ends in the path it was given. The value
    is fixed before any table is looked at: it holds no facts, and it is
    the same for every facts name and every list of headers. *)
Theorem unreadable_document_reported docx_Document input_file table_name headers :
  docx_Document input_file = Raise IOError →
  parse_tables_dict docx_Document input_file table_name headers =
    Return (1%Z, Message ("IOError on input file: " +:+ input_file))
  ∧ records_of table_name
      (parse_tables_dict docx_Document input_file table_name headers) = None
  ∧ ∀ table_name' headers',
      parse_tables_dict docx_Document input_file table_name' headers' =
      parse_tables_dict docx_Document input_file table_name headers.
Proof.
  intros Hopen. unfold parse_tables_dict. rewrite Hopen. by repeat split.
Qed.

Lemma unreadable_document_reported_witness :
  test_docx "missing.docx" = Raise IOError
  ∧ parse_tables_dict test_docx "missing.docx" "routes" ["Destination"] =
      Return (1%Z, Message "IOError on input file: missing.docx").
Proof.
  split; [reflexivity|].
  apply (unreadable_document_reported test_docx "missing.docx" "routes"
           ["Destination"]).
  reflexivity.
Defined.

(** C3. A table whose first-row cell texts are, as a set, the wanted
    headers adds one record for each of its rows but the first. *)
Theorem exact_headers_record_count docx_Document input_file table_name
    headers doc before t after header_row data_rows :
  docx_Document input_file = Return doc →
  tables doc = before ++ t :: after →
  rows t = header_row :: data_rows →
  list_to_set (cell_texts header_row) =@{gset string} list_to_set headers →
  ∃ added,
    parse_tables_dict docx_Document input_file table_name headers =
      Return (facts_result table_name
                (extracted headers before ++ added ++ extracted headers after))
    ∧ length added = length (rows t) - 1.
Proof.
  intros Hopen Hts Hrows Hset. exists (table_records headers t). split.
  - by apply parse_tables_dict_around with doc.
  - unfold table_records. rewrite Hrows.
    assert (issubset headers (cell_texts header_row) = true) as ->.
    { apply issubset_spec. by rewrite Hset. }
    rewrite length_fmap. simpl. lia.
Qed.

Lemma exact_headers_record_count_witness :
  ∃ added,
    parse_tables_dict test_docx "test_document.docx" "routes"
      ["NextHop"; "Destination"; "NextHop"] =
      Return (facts_result "routes"
                (extracted ["NextHop"; "Destination"; "NextHop"] []
                   ++ added
                   ++ extracted ["NextHop"; "Destination"; "NextHop"]
                        [zones; no_rows; routes_with_metric; ragged]))
    ∧ length added = length (rows routes) - 1.
Proof.
  apply (exact_headers_record_count test_docx "test_document.docx" "routes"
           ["NextHop"; "Destination"; "NextHop"] test_document
           [] routes [zones; no_rows; routes_with_metric; ragged]
           (mk_row ["Destination"; "NextHop"])
           [mk_row ["10.0.0.0/8"; "192.168.1.1"];
            mk_row ["0.0.0.0/0"; "192.168.1.254"]]).
  - reflexivity.
  - reflexivity.
  - reflexivity.
  - vm_compute. reflexivity.
Defined.

(** C4. The record of a data row of a selected table pairs header and
    cell column by column as far as the shorter of the two goes: it is
    the record of the two lists cut to that length, its keys are the
    headers of those columns and no others, each of its values is the
    cell under a header of that name, and a header not repeated further
    right among those columns holds the cell of its own column. The
    row is stored whatever the two lengths are. *)
Theorem row_record_pairs_up_to_shorter ansible_table_name headers f i row
    keys records :
  i ≠ 0 →
  l_keys f = Some keys →
  l_tables f !! ansible_table_name = Some records →
  list_to_set headers ⊆@{gset string} list_to_set keys →
  let n := length keys `min` length (cells row) in
  ∃ row_data,
    row_body ansible_table_name headers f i row =
      Return (with_output ansible_table_name f (Some keys)
                (records ++ [row_data]))
    ∧ row_data = dict_zip (take n keys) (take n (cell_texts row))
    ∧ dom row_data = list_to_set (take n keys)
    ∧ (∀ k v, row_data !! k = Some v →
         ∃ j, j < n ∧ keys !! j = Some k ∧ cell_texts row !! j = Some v)
    ∧ (∀ j k v, keys !! j = Some k → cell_texts row !! j = Some v →
         (∀ j', j < j' → j' < n → keys !! j' ≠ Some k) →
         row_data !! k = Some v).
Proof.
  intros Hi Hkeys Hout Hsub n.
  assert (n = length keys `min` length (cell_texts row)) as Hn.
  { unfold n, cell_texts. by rewrite length_fmap. }
  exists (dict_zip keys (cell_texts row)). repeat split.
  - rewrite (row_body_data _ _ f i row keys records) by done.
    apply issubset_spec in Hsub. by rewrite Hsub.
  - rewrite Hn. apply dict_zip_shorter.
  - rewrite Hn. apply dict_zip_dom.
  - rewrite Hn. apply dict_zip_origin.
  - rewrite Hn. intros j k v. apply dict_zip_last.
Qed.

Lemma row_record_pairs_up_to_shorter_witness :
  ∃ row_data,
    row_body "table_routes" ["NextHop"] sample_frame 1 (mk_row ["10.1.0.0/16"]) =
      Return (with_output "table_routes" sample_frame
                (Some ["Destination"; "NextHop"]) ([] ++ [row_data]))
    ∧ row_data = dict_zip ["Destination"] ["10.1.0.0/16"]
    ∧ dom row_data = list_to_set ["Destination"]
    ∧ (∀ k v, row_data !! k = Some v →
         ∃ j, j < 1 ∧ ["Destination"; "NextHop"] !! j = Some k
              ∧ cell_texts (mk_row ["10.1.0.0/16"]) !! j = Some v)
    ∧ (∀ j k v, ["Destination"; "NextHop"] !! j = Some k →
         cell_texts (mk_row ["10.1.0.0/16"]) !! j = Some v →
         (∀ j', j < j' → j' < 1 → ["Destination"; "NextHop"] !! j' ≠ Some k) →
         row_data !! k = Some v).
Proof.
  apply (row_record_pairs_up_to_shorter "table_routes" ["NextHop"]
           sample_frame 1
           (mk_row ["10.1.0.0/16"]) ["Destination"; "NextHop"] []).
  - lia.
  - reflexivity.
  - reflexivity.
  - headers_among_keys.
Defined.

(** C5. With no header wanted every table is selected: the output is
    the records of all data rows of all tables, in order, and a table
    without rows adds none; the call returns normally. *)
Theorem empty_headers_select_every_table docx_Document input_file table_name doc :
  docx_Document input_file = Return doc →
  parse_tables_dict docx_Document input_file table_name [] =
    Return (facts_result table_name (tables doc ≫= data_records))
  ∧ ∀ t, t ∈ tables doc →
      table_records [] t = data_records t
      ∧ length (data_records t) = length (rows t) - 1.
Proof.
  intros Hopen.
  assert (∀ t, table_records [] t = data_records t) as Hall.
  { intros t. unfold table_records, data_records.
    destruct (rows t) as [|header_row data_rows]; [done|].
    assert (issubset [] (cell_texts header_row) = true) as ->; [|done].
    apply issubset_spec. rewrite list_to_set_nil. apply empty_subseteq. }
  split.
  - rewrite (parse_tables_dict_opened _ _ _ _ _ Hopen).
    assert (extracted [] (tables doc) = tables doc ≫= data_records) as ->;
      [|done].
    induction (tables doc) as [|t ts IH]; [done|].
    rewrite extracted_cons, IH, Hall. done.
  - intros t _. split; [apply Hall|]. unfold data_records.
    destruct (rows t) as [|header_row data_rows]; [done|].
    rewrite length_fmap. simpl. lia.
Qed.

Lemma empty_headers_select_every_table_witness :
  parse_tables_dict test_docx "test_document.docx" "all" [] =
    Return (facts_result "all" (tables test_document ≫= data_records))
  ∧ ∀ t, t ∈ tables test_document →
      table_records [] t = data_records t
      ∧ length (data_records t) = length (rows t) - 1.
Proof.
  apply (empty_headers_select_every_table test_docx "test_document.docx"
           "all" test_document).
  reflexivity.
Defined.

(** C6. Whatever the wanted headers are, the first row of a table is
    taken as its keys and stores nothing; the records that the table
    then adds are at most as many as its later rows, and the j-th of
    them is built from the row at position j+1, never from the first. *)
Theorem first_row_is_header_only ansible_table_name headers f t records
    header_row data_rows :
  l_tables f !! ansible_table_name = Some records →
  rows t = header_row :: data_rows →
  row_body ansible_table_name headers f 0 header_row =
    Return {| l_doc := l_doc f; l_keys := Some (cell_texts header_row);
              l_tables := l_tables f |}
  ∧ ∃ added,
      for_rows ansible_table_name headers 0 (rows t) f =
        Return (with_output ansible_table_name f
                  (Some (cell_texts header_row)) (records ++ added))
      ∧ length added ≤ length (rows t) - 1
      ∧ ∀ j row_data, added !! j = Some row_data →
          ∃ row, rows t !! S j = Some row
                 ∧ row_data = dict_zip (cell_texts header_row) (cell_texts row).
Proof.
  intros Hout Hrows. split; [done|].
  exists (table_records headers t). split; [|split].
  - rewrite (for_rows_table _ _ t f records Hout). by rewrite Hrows.
  - unfold table_records. rewrite Hrows.
    destruct (issubset headers (cell_texts header_row)); simpl;
      rewrite ?length_fmap; lia.
  - intros j row_data. unfold table_records. rewrite Hrows. simpl.
    destruct (issubset headers (cell_texts header_row)).
    + rewrite list_lookup_fmap. intros Hj.
      destruct (data_rows !! j) as [row|]; [|done].
      injection Hj as <-. by exists row.
    + by rewrite lookup_nil.
Qed.

Lemma first_row_is_header_only_witness :
  row_body "table_routes" ["Destination"; "NextHop"] sample_frame 0
      (mk_row ["Zone"; "ZoneProtectionProfile"]) =
    Return {| l_doc := l_doc sample_frame;
              l_keys := Some (cell_texts (mk_row ["Zone"; "ZoneProtectionProfile"]));
              l_tables := l_tables sample_frame |}
  ∧ ∃ added,
      for_rows "table_routes" ["Destination"; "NextHop"] 0 (rows zones)
          sample_frame =
        Return (with_output "table_routes" sample_frame
                  (Some (cell_texts (mk_row ["Zone"; "ZoneProtectionProfile"])))
                  ([] ++ added))
      ∧ length added ≤ length (rows zones) - 1
      ∧ ∀ j row_data, added !! j = Some row_data →
          ∃ row, rows zones !! S j = Some row
                 ∧ row_data =
                     dict_zip (cell_texts (mk_row ["Zone"; "ZoneProtectionProfile"]))
                       (cell_texts row).
Proof.
  apply (first_row_is_header_only "table_routes" ["Destination"; "NextHop"]
           sample_frame zones [] (mk_row ["Zone"; "ZoneProtectionProfile"])
           [mk_row ["trust"; "strict"]]).
  - reflexivity.
  - reflexivity.
Defined.

(** C7. When a header text stands in two columns that a data row of a
    selected table both fills, the record of the row holds, under that
    text, the cell of the rightmost such column. Its keys are pairwise
    different, so it has fewer entries than columns were paired. *)
Theorem repeated_header_later_column_wins ansible_table_name headers f r row
    keys records i j k :
  r ≠ 0 →
  l_keys f = Some keys →
  l_tables f !! ansible_table_name = Some records →
  list_to_set headers ⊆@{gset string} list_to_set keys →
  i < j →
  keys !! i = Some k →
  keys !! j = Some k →
  j < length (cells row) →
  (∀ j', j < j' → j' < length (cells row) → keys !! j' ≠ Some k) →
  ∃ row_data c,
    row_body ansible_table_name headers f r row =
      Return (with_output ansible_table_name f (Some keys)
                (records ++ [row_data]))
    ∧ cells row !! j = Some c
    ∧ row_data !! k = Some (text c)
    ∧ NoDup (map_to_list row_data).*1
    ∧ size row_data < length keys `min` length (cells row).
Proof.
  intros Hr Hkeys Hout Hsub Hij Hi Hj Hlen Hlast.
  destruct (lookup_lt_is_Some_2 (cells row) j Hlen) as [c Hc].
  assert (cell_texts row !! j = Some (text c)) as Htext.
  { unfold cell_texts. by rewrite list_lookup_fmap, Hc. }
  assert (length (cell_texts row) = length (cells row)) as Hlen'.
  { unfold cell_texts. by rewrite length_fmap. }
  exists (dict_zip keys (cell_texts row)), c. repeat split.
  - rewrite (row_body_data _ _ f r row keys records) by done.
    apply issubset_spec in Hsub. by rewrite Hsub.
  - done.
  - apply dict_zip_last with j; [done..|].
    intros j' Hlt Hmin. apply Hlast; [done|lia].
  - apply NoDup_fst_map_to_list.
  - rewrite <- Hlen'. apply dict_zip_size_repeated with i j k; [done..|lia].
Qed.

Lemma repeated_header_later_column_wins_witness :
  ∃ row_data c,
    row_body "table_ports" ["Speed"] ports_frame 1
        (mk_row ["eth0"; "eth1"; "1G"]) =
      Return (with_output "table_ports" ports_frame
                (Some ["Port"; "Port"; "Speed"]) ([] ++ [row_data]))
    ∧ cells (mk_row ["eth0"; "eth1"; "1G"]) !! 1 = Some c
    ∧ row_data !! "Port" = Some (text c)
    ∧ NoDup (map_to_list row_data).*1
    ∧ size row_data
        < length ["Port"; "Port"; "Speed"]
            `min` length (cells (mk_row ["eth0"; "eth1"; "1G"])).
Proof.
  apply (repeated_header_later_column_wins "table_ports" ["Speed"]
           ports_frame 1 (mk_row ["eth0"; "eth1"; "1G"])
           ["Port"; "Port"; "Speed"] [] 0 1 "Port").
  - lia.
  - reflexivity.
  - reflexivity.
  - headers_among_keys.
  - lia.
  - reflexivity.
  - reflexivity.
  - simpl. lia.
  - intros j' Hlt Hlen.
    assert (j' = 2) as -> by (simpl in Hlen; lia). discriminate.
Defined.

(** ** The store: reading it and keeping it *)

Section Store.

Import Heap.

Implicit Types (h : heap) (l : nat) (o : pyobj).

Lemma bind_returns {A B : Type} (c : run A) (k : A → run B) h a h' :
  c h = (Return a, h') → (c ≫= k) h = k a h'.
Proof. intros Hc. unfold mbind, run_bind. by rewrite Hc. Qed.

Lemma load_returns h l o : h !! l = Some o → load l h = (Return o, h).
Proof. intros Hl. unfold load. by rewrite Hl. Qed.

Lemma same_but_refl l h : same_but l h h.
Proof. by split. Qed.

Lemma same_but_trans l h1 h2 h3 :
  same_but l h1 h2 → same_but l h2 h3 → same_but l h1 h3.
Proof.
  intros [Hlen12 H12] [Hlen23 H23]. split; [lia|].
  intros l' Hl' Hne. rewrite H23 by (done || lia). by apply H12.
Qed.

Lemma same_but_alloc l h o : same_but l h (h ++ [o]).
Proof.
  split; [rewrite length_app; lia|].
  intros l' Hl' _. by rewrite lookup_app_l.
Qed.

Lemma same_but_store l h o : same_but l h (<[l := o]> h).
Proof.
  split; [by rewrite length_insert|].
  intros l' _ Hne. by rewrite list_lookup_insert_ne.
Qed.

(** What lies below an untouched position is a prefix of the later
    store. *)
Lemma same_but_prefix l h0 h h' :
  h0 `prefix_of` h → length h0 ≤ l → same_but l h h' → h0 `prefix_of` h'.
Proof.
  intros [k ->] Hl [Hlen Hsame]. exists (drop (length h0) h').
  rewrite <- (take_drop (length h0) h') at 1. f_equal.
  apply list_eq. intros i. rewrite lookup_take.
  destruct (decide (i < length h0)) as [Hi|Hi].
  - rewrite Hsame; [|rewrite length_app; lia|lia].
    by rewrite lookup_app_l.
  - symmetry. apply lookup_ge_None. lia.
Qed.

Lemma keeps_document_refl h : keeps_document h h.
Proof. intros l o Hl. by destruct o. Qed.

Lemma keeps_document_trans h1 h2 h3 :
  keeps_document h1 h2 → keeps_document h2 h3 → keeps_document h1 h3.
Proof.
  intros H12 H23 l o Hl. specialize (H12 l o Hl).
  destruct o; try done; by apply (H23 l _ H12).
Qed.

Lemma prefix_keeps_document h h' : h `prefix_of` h' → keeps_document h h'.
Proof.
  intros Hpre l o Hl.
  pose proof (prefix_lookup_Some _ _ _ _ Hl Hpre). by destruct o.
Qed.

Lemma same_but_keeps_document l h h' items :
  h !! l = Some (PyList items) → same_but l h h' → keeps_document h h'.
Proof.
  intros Hlist [_ Hsame] l' o Hl'.
  assert (l' < length h) by (by apply lookup_lt_Some in Hl').
  destruct (decide (l' = l)) as [->|Hne].
  - rewrite Hlist in Hl'. by injection Hl' as <-.
  - rewrite <- (Hsame l') in Hl' by done. by destruct o.
Qed.

Lemma store_dict_keeps_document h l entries o :
  h !! l = Some (PyDict entries) → keeps_document h (<[l := o]> h).
Proof.
  intros Hdict l' o' Hl'. destruct (decide (l' = l)) as [->|Hne].
  - rewrite Hdict in Hl'. by injection Hl' as <-.
  - rewrite list_lookup_insert_ne by done. by destruct o'.
Qed.

(** Reading a document needs its objects only. *)
Lemma read_cell_keeps h h' c x :
  keeps_document h h' → read_cell h c = Some x → read_cell h' c = Some x.
Proof.
  intros Hkeep. unfold read_cell.
  destruct (h !! c) as [[]|] eqn:Hc; try done.
  by rewrite (Hkeep _ _ Hc).
Qed.

Lemma mapM_read_keeps {A : Type} (rd : heap → nat → option A) h h' ls xs :
  (∀ l x, rd h l = Some x → rd h' l = Some x) →
  mapM (rd h) ls = Some xs → mapM (rd h') ls = Some xs.
Proof.
  intros Hrd Hall. apply mapM_Some. apply mapM_Some in Hall.
  eapply Forall2_impl; [exact Hall|]. apply Hrd.
Qed.

Lemma read_row_keeps h h' r x :
  keeps_document h h' → read_row h r = Some x → read_row h' r = Some x.
Proof.
  intros Hkeep. unfold read_row.
  destruct (h !! r) as [[| | | |cs|]|] eqn:Hr; try done.
  rewrite (Hkeep _ _ Hr). intros Hcells.
  destruct (mapM (read_cell h) cs) as [xs|] eqn:Hxs; [|done].
  by rewrite (mapM_read_keeps read_cell h h' _ xs)
    by eauto using read_cell_keeps.
Qed.

Lemma read_table_keeps h h' t x :
  keeps_document h h' → read_table h t = Some x → read_table h' t = Some x.
Proof.
  intros Hkeep. unfold read_table.
  destruct (h !! t) as [[| | |rs| |]|] eqn:Ht; try done.
  rewrite (Hkeep _ _ Ht). intros Hrows.
  destruct (mapM (read_row h) rs) as [xs|] eqn:Hxs; [|done].
  by rewrite (mapM_read_keeps read_row h h' _ xs)
    by eauto using read_row_keeps.
Qed.

Lemma read_document_keeps h h' d x :
  keeps_document h h' → read_document h d = Some x → read_document h' d = Some x.
Proof.
  intros Hkeep. unfold read_document.
  destruct (h !! d) as [[| |ts| | |]|] eqn:Hd; try done.
  rewrite (Hkeep _ _ Hd). intros Htables.
  destruct (mapM (read_table h) ts) as [xs|] eqn:Hxs; [|done].
  by rewrite (mapM_read_keeps read_table h h' _ xs)
    by eauto using read_table_keeps.
Qed.

End Store.

(** ** The scan over the store *)

Section StoreScan.

Import Heap.

Variables (tables : nat) (ansible_table_name : string).
Variables (records headers : nat) (wanted : list string).

Hypothesis tables_apart : tables ≠ records.
Hypothesis headers_apart : headers ≠ records.

Implicit Types (h : heap) (found : list row_dict).

Lemma shows_record_same_but h h' v row_data items :
  h !! records = Some (PyList items) →
  same_but records h h' →
  shows_record h v row_data → shows_record h' v row_data.
Proof.
  intros Hlist [_ Hsame] (d & -> & Hd). exists d. split; [done|].
  rewrite Hsame; [done|by apply lookup_lt_Some in Hd|].
  intros ->. rewrite Hlist in Hd. discriminate Hd.
Qed.

(** The invariant after a record was put into a new dictionary and
    the dictionary appended to the list. *)
Lemma scan_inv_append h found row_data items :
  scan_inv tables ansible_table_name records headers wanted h found →
  h !! records = Some (PyList items) →
  scan_inv tables ansible_table_name records headers wanted
    (<[records := PyList (items ++ [Ref (length h)])]>
         (h ++ [PyDict (Str <$> row_data)]))
      (found ++ [row_data]).
Proof.
  intros (Hheaders & Htables & l & items' & Hl & Hitems' & Hshown) Hitems.
  injection Hl as <-. rewrite Hitems in Hitems'. injection Hitems' as <-.
  assert (records < length h) as Hlt by (by apply lookup_lt_Some in Hitems).
  assert (same_but records h
            (<[records := PyList (items ++ [Ref (length h)])]>
               (h ++ [PyDict (Str <$> row_data)]))) as Hsame.
  { eapply same_but_trans; [apply same_but_alloc|apply same_but_store]. }
  split; [|split].
  - unfold read_strs in *.
    destruct (h !! headers) as [o|] eqn:Hh; [|done].
    destruct Hsame as [_ Hsame].
    rewrite Hsame, Hh; [done|by apply lookup_lt_Some in Hh|done].
  - destruct Hsame as [_ Hsame].
    rewrite Hsame; [done|by apply lookup_lt_Some in Htables|done].
  - exists records, (items ++ [Ref (length h)]). split; [done|]. split.
    + apply list_lookup_insert_eq. rewrite length_app. lia.
    + apply Forall2_app.
      * eapply Forall2_impl; [exact Hshown|].
        intros v rd. by apply shows_record_same_but with items.
      * constructor; [|constructor]. exists (length h). split; [done|].
        rewrite list_lookup_insert_ne by lia.
        by rewrite lookup_app_r, Nat.sub_diag by lia.
Qed.

(** Reading the texts of cells leaves the store alone. *)
Lemma mapM_get_text h cs : ∀ xs,
  mapM (read_cell h) cs = Some xs →
  mapM get_text cs h = (Return (text <$> xs), h).
Proof.
  induction cs as [|c cs IH]; intros xs Hxs.
  - injection Hxs as <-. done.
  - apply mapM_Some in Hxs. inversion Hxs as [|? x ? xs' Hc Hrest]; subst.
    apply mapM_Some in Hrest.
    unfold read_cell in Hc.
    destruct (h !! c) as [[| | | | |s]|] eqn:Hl; try done.
    injection Hc as <-.
    change (mapM get_text (c :: cs))
      with (y ← get_text c; k ← mapM get_text cs; mret (y :: k)).
    assert (get_text c h = (Return s, h)) as Hget.
    { unfold get_text. by rewrite (bind_returns _ _ h _ h (load_returns _ _ _ Hl)). }
    rewrite (bind_returns _ _ h _ h Hget).
    by rewrite (bind_returns _ _ h _ h (IH _ Hrest)).
Qed.

Lemma get_cells_returns h row r :
  read_row h row = Some r →
  ∃ cs, get_cells row h = (Return cs, h)
        ∧ mapM (read_cell h) cs = Some (cells r).
Proof.
  unfold read_row. destruct (h !! row) as [[| | | |cs|]|] eqn:Hl; try done.
  intros Hcells. exists cs.
  destruct (mapM (read_cell h) cs) as [xs|]; [|done].
  injection Hcells as <-. split; [|done].
  unfold get_cells. by rewrite (bind_returns _ _ h _ h (load_returns _ _ _ Hl)).
Qed.

Lemma set_of_returns h found :
  scan_inv tables ansible_table_name records headers wanted h found →
  set_of headers h = (Return wanted, h).
Proof.
  intros (Hheaders & _). unfold read_strs in Hheaders. unfold set_of.
  destruct (h !! headers) as [[items| | | | |]|] eqn:Hl; try done.
  rewrite (bind_returns _ _ h _ h (load_returns _ _ _ Hl)).
  by rewrite Hheaders.
Qed.

(** The first row of a table: its texts become the keys. *)
Lemma heap_row_first h row r keys :
  read_row h row = Some r →
  row_body tables ansible_table_name headers keys 0 row h =
    (Return (Some (cell_texts r)), h).
Proof.
  intros Hrow. destruct (get_cells_returns h row r Hrow) as (cs & Hcs & Hcells).
  unfold row_body. rewrite (bind_returns _ _ h _ h Hcs). simpl.
  by rewrite (bind_returns _ _ h _ h (mapM_get_text h cs _ Hcells)).
Qed.

(** A later row: a record is appended if the headers are among the keys. *)
Lemma heap_row_data h found i row r ks :
  i ≠ 0 →
  scan_inv tables ansible_table_name records headers wanted h found →
  read_row h row = Some r →
  ∃ h',
    row_body tables ansible_table_name headers (Some ks) i row h =
      (Return (Some ks), h')
    ∧ same_but records h h'
    ∧ scan_inv tables ansible_table_name records headers wanted h'
        (found ++ if issubset wanted ks
                       then [dict_zip ks (cell_texts r)] else []).
Proof.
  intros Hi Hinv Hrow.
  destruct (get_cells_returns h row r Hrow) as (cs & Hcs & Hcells).
  unfold row_body. rewrite (bind_returns _ _ h _ h Hcs).
  destruct (decide (i = 0)) as [|_]; [done|].
  rewrite (bind_returns _ _ h _ h (set_of_returns h found Hinv)).
  destruct (issubset wanted ks).
  - assert (mapM (read_cell h) (take (length ks) cs) =
              Some (take (length ks) (cells r))) as Htake.
    { apply mapM_Some. apply mapM_Some in Hcells. by apply Forall2_take. }
    rewrite (bind_returns _ _ h _ h (mapM_get_text h _ _ Htake)).
    unfold alloc at 1.
    set (row_data := dict_zip ks (text <$> take (length ks) (cells r))).
    set (h1 := h ++ [PyDict (Str <$> row_data)]).
    rewrite (bind_returns _ _ h (length h) h1) by done.
    destruct Hinv as (Hheaders & Htables & l & items & Hl & Hitems & Hshown).
    injection Hl as <-.
    assert (h1 !! tables =
              Some (PyDict {[ ansible_table_name := Ref records ]})) as Htables1.
    { unfold h1. rewrite lookup_app_l; [done|].
      by apply lookup_lt_Some in Htables. }
    assert (h1 !! records = Some (PyList items)) as Hitems1.
    { unfold h1. rewrite lookup_app_l; [done|].
      by apply lookup_lt_Some in Hitems. }
    assert (dict_getitem tables ansible_table_name h1 =
              (Return (Ref records), h1)) as Hget.
    { unfold dict_getitem.
      rewrite (bind_returns _ _ h1 _ h1 (load_returns _ _ _ Htables1)).
      by rewrite lookup_singleton_eq. }
    rewrite (bind_returns _ _ h1 _ h1 Hget).
    assert (list_append (Ref records) (Ref (length h)) h1 =
              (Return (),
               <[records := PyList (items ++ [Ref (length h)])]> h1)) as Happ.
    { unfold list_append.
      by rewrite (bind_returns _ _ h1 _ h1 (load_returns _ _ _ Hitems1)). }
    rewrite (bind_returns _ _ h1 _ _ Happ).
    eexists. split; [done|]. split.
    + eapply same_but_trans; [apply same_but_alloc|apply same_but_store].
    + assert (row_data = dict_zip ks (cell_texts r)) as <-.
      { unfold row_data, dict_zip, cell_texts. rewrite fmap_take.
        by rewrite (zip_with_take_r pair ks (text <$> cells r)). }
      apply scan_inv_append; [|done]. split; [done|]. split; [done|].
      by exists records, items.
  - exists h. split; [done|]. split; [apply same_but_refl|].
    by rewrite app_nil_r.
Qed.

Lemma scan_inv_list h found :
  scan_inv tables ansible_table_name records headers wanted h found →
  ∃ items, h !! records = Some (PyList items).
Proof.
  intros (_ & _ & l & items & Hl & Hitems & _). injection Hl as <-. eauto.
Qed.

Lemma scan_inv_keeps h h' found :
  scan_inv tables ansible_table_name records headers wanted h found →
  same_but records h h' → keeps_document h h'.
Proof.
  intros Hinv Hsame. destruct (scan_inv_list h found Hinv) as [items Hitems].
  by apply same_but_keeps_document with records items.
Qed.

(** The rows after the first. *)
Lemma heap_rows_data ks rs : ∀ rws h found i,
  i ≠ 0 →
  scan_inv tables ansible_table_name records headers wanted h found →
  mapM (read_row h) rs = Some rws →
  ∃ h',
    for_rows tables ansible_table_name headers i rs (Some ks) h =
      (Return (Some ks), h')
    ∧ same_but records h h'
    ∧ scan_inv tables ansible_table_name records headers wanted h'
        (found ++ if issubset wanted ks
                       then (λ r, dict_zip ks (cell_texts r)) <$> rws
                       else []).
Proof.
  induction rs as [|row rs IH]; intros rws h found i Hi Hinv Hrows.
  - injection Hrows as <-. exists h. split; [done|].
    split; [apply same_but_refl|].
    by destruct (issubset wanted ks); rewrite app_nil_r.
  - apply mapM_Some in Hrows.
    inversion Hrows as [|? r ? rws' Hrow Hrest]; subst.
    apply mapM_Some in Hrest.
    destruct (heap_row_data h found i row r ks Hi Hinv Hrow)
      as (h1 & Hstep & Hsame1 & Hinv1).
    assert (mapM (read_row h1) rs = Some rws') as Hrest1.
    { apply (mapM_read_keeps read_row h h1); [|done].
      intros l x. apply read_row_keeps. by apply scan_inv_keeps with found. }
    destruct (IH rws' h1 _ (S i) ltac:(lia) Hinv1 Hrest1)
      as (h2 & Hloop & Hsame2 & Hinv2).
    exists h2. split; [|split].
    + simpl. by rewrite (bind_returns _ _ h _ h1 Hstep).
    + by apply same_but_trans with h1.
    + destruct (issubset wanted ks); simpl in *.
      * by rewrite <- app_assoc in Hinv2.
      * by rewrite !app_nil_r in *.
Qed.

(** One table. *)
Lemma heap_table h found t tb keys :
  scan_inv tables ansible_table_name records headers wanted h found →
  read_table h t = Some tb →
  ∃ rs h' keys',
    get_rows t h = (Return rs, h)
    ∧ for_rows tables ansible_table_name headers 0 rs keys h =
        (Return keys', h')
    ∧ same_but records h h'
    ∧ scan_inv tables ansible_table_name records headers wanted h'
        (found ++ table_records wanted tb).
Proof.
  intros Hinv. unfold read_table.
  destruct (h !! t) as [[| | |rs| |]|] eqn:Hl; try done.
  destruct (mapM (read_row h) rs) as [rws|] eqn:Hrows; [|done].
  intros Htb. injection Htb as <-.
  assert (get_rows t h = (Return rs, h)) as Hget.
  { unfold get_rows. by rewrite (bind_returns _ _ h _ h (load_returns _ _ _ Hl)). }
  exists rs. unfold table_records. simpl.
  destruct rs as [|row rs].
  - injection Hrows as <-. exists h, keys. do 2 (split; [done|]).
    split; [apply same_but_refl|]. by rewrite app_nil_r.
  - apply mapM_Some in Hrows.
    inversion Hrows as [|? r ? rws' Hrow Hrest]; subst.
    apply mapM_Some in Hrest.
    destruct (heap_rows_data (cell_texts r) rs rws' h found 1
                ltac:(lia) Hinv Hrest) as (h' & Hloop & Hsame & Hinv').
    exists h', (Some (cell_texts r)). split; [done|]. split; [|done].
    simpl. by rewrite (bind_returns _ _ h _ h (heap_row_first h row r keys Hrow)).
Qed.

(** All tables. *)
Lemma heap_tables ts : ∀ tbls h found keys,
  scan_inv tables ansible_table_name records headers wanted h found →
  mapM (read_table h) ts = Some tbls →
  ∃ h' keys',
    for_tables tables ansible_table_name headers ts keys h = (Return keys', h')
    ∧ same_but records h h'
    ∧ scan_inv tables ansible_table_name records headers wanted h'
        (found ++ extracted wanted tbls).
Proof.
  induction ts as [|t ts IH]; intros tbls h found keys Hinv Htables.
  - injection Htables as <-. exists h, keys. split; [done|].
    split; [apply same_but_refl|]. unfold extracted. simpl.
    by rewrite app_nil_r.
  - apply mapM_Some in Htables.
    inversion Htables as [|? tb ? tbls' Ht Hrest]; subst.
    apply mapM_Some in Hrest.
    destruct (heap_table h found t tb keys Hinv Ht)
      as (rs & h1 & keys1 & Hget & Hstep & Hsame1 & Hinv1).
    assert (mapM (read_table h1) ts = Some tbls') as Hrest1.
    { apply (mapM_read_keeps read_table h h1); [|done].
      intros l x. apply read_table_keeps. by apply scan_inv_keeps with found. }
    destruct (IH tbls' h1 _ keys1 Hinv1 Hrest1)
      as (h2 & keys2 & Hloop & Hsame2 & Hinv2).
    exists h2, keys2. split; [|split].
    + simpl. rewrite (bind_returns _ _ h _ h Hget).
      by rewrite (bind_returns _ _ h _ h1 Hstep).
    + by apply same_but_trans with h1.
    + by rewrite extracted_cons, app_assoc.
Qed.

End StoreScan.

(** ** The whole call over the store *)

Section StoreCall.

Import Heap.

Lemma option_Forall2_mono {A B : Type} (R R' : A → B → Prop) mx my :
  (∀ x y, R x y → R' x y) → option_Forall2 R mx my → option_Forall2 R' mx my.
Proof. intros Himpl [x y Hxy|]; constructor. by apply Himpl. Qed.

Lemma shows_record_prefix h h' v row_data :
  h `prefix_of` h' → shows_record h v row_data → shows_record h' v row_data.
Proof.
  intros Hpre (d & -> & Hd). exists d. split; [done|].
  by apply prefix_lookup_Some with h.
Qed.

Lemma shows_records_prefix h h' v found :
  h `prefix_of` h' → shows_records h v found → shows_records h' v found.
Proof.
  intros Hpre (l & items & -> & Hl & Hitems). exists l, items.
  split; [done|]. split; [by apply prefix_lookup_Some with h|].
  eapply Forall2_impl; [exact Hitems|].
  intros v rd. by apply shows_record_prefix.
Qed.

Lemma shows_facts_prefix h h' v facts :
  h `prefix_of` h' → shows_facts h v facts → shows_facts h' v facts.
Proof.
  intros Hpre (t & entries & -> & Ht & Hentries). exists t, entries.
  split; [done|]. split; [by apply prefix_lookup_Some with h|].
  intros name. eapply option_Forall2_mono; [|apply Hentries].
  intros v fs. by apply shows_records_prefix.
Qed.

Lemma shows_prefix h h' v r :
  h `prefix_of` h' → shows h v r → shows h' v r.
Proof.
  intros Hpre. destruct r as [msg|result]; [done|].
  intros (d & entries & -> & Hd & Hentries). exists d, entries.
  split; [done|]. split; [by apply prefix_lookup_Some with h|].
  intros key. eapply option_Forall2_mono; [|apply Hentries].
  intros v fs. by apply shows_facts_prefix.
Qed.

(** What a value shows is settled by the store. *)
Lemma shows_record_unique h v rd1 rd2 :
  shows_record h v rd1 → shows_record h v rd2 → rd1 = rd2.
Proof.
  intros (d & -> & Hd1) (d' & Hd' & Hd2). injection Hd' as <-.
  rewrite Hd1 in Hd2. injection Hd2 as Hsame.
  apply map_eq. intros k. apply (f_equal (lookup k)) in Hsame.
  rewrite !lookup_fmap in Hsame.
  destruct (rd1 !! k), (rd2 !! k); simpl in Hsame; congruence.
Qed.

Lemma shows_records_unique h v found1 found2 :
  shows_records h v found1 → shows_records h v found2 → found1 = found2.
Proof.
  intros (l & items & -> & Hl1 & Hitems1) (l' & items' & Hl' & Hl2 & Hitems2).
  injection Hl' as <-. rewrite Hl1 in Hl2. injection Hl2 as <-.
  clear Hl1. revert found2 Hitems2.
  induction Hitems1 as [|v rd items found1 Hv _ IH]; intros found2 Hitems2;
    inversion Hitems2 as [|? rd' ? found2' Hv' Hrest]; subst; [done|].
  f_equal; [by apply shows_record_unique with h v|by apply IH].
Qed.

Lemma shows_facts_unique h v facts1 facts2 :
  shows_facts h v facts1 → shows_facts h v facts2 → facts1 = facts2.
Proof.
  intros (t & entries & -> & Ht1 & Hentries1) (t' & entries' & Ht' & Ht2 & Hentries2).
  injection Ht' as <-. rewrite Ht1 in Ht2. injection Ht2 as <-.
  apply map_eq. intros name.
  specialize (Hentries1 name). specialize (Hentries2 name).
  destruct Hentries1 as [x y Hxy|]; inversion Hentries2 as [? y' Hxy'|]; [|done].
  f_equal. by apply shows_records_unique with h x.
Qed.

Lemma shows_unique h v r1 r2 : shows h v r1 → shows h v r2 → r1 = r2.
Proof.
  destruct r1 as [msg1|result1], r2 as [msg2|result2]; simpl.
  - by intros -> [= ->].
  - by intros -> (d & entries & Hv & _).
  - by intros (d & entries & -> & _) Hv.
  - intros (d & entries & -> & Hd1 & Hentries1)
           (d' & entries' & Hd' & Hd2 & Hentries2).
    injection Hd' as <-. rewrite Hd1 in Hd2. injection Hd2 as <-.
    f_equal. apply map_eq. intros key.
    specialize (Hentries1 key). specialize (Hentries2 key).
    destruct Hentries1 as [x y Hxy|]; inversion Hentries2 as [? y' Hxy'|]; [|done].
    f_equal. by apply shows_facts_unique with h x.
Qed.

Variable docx_Document : string → run nat.
Variables (input_file table_name : string) (headers : nat).
Variables (wanted : list string) (doc : Document).

Hypothesis opens : ∀ h,
  ∃ d h', docx_Document input_file h = (Return d, h')
          ∧ h `prefix_of` h' ∧ read_document h' d = Some doc.

Lemma heap_call h0 :
  read_strs h0 headers = Some wanted →
  ∃ r ha d hb h1,
    parse_tables_dict docx_Document input_file table_name headers h0 =
      (Return (0%Z, Ref r), h1)
    ∧ h0 `prefix_of` h1
    ∧ length h0 ≤ r < length h1
    ∧ docx_Document input_file ha = (Return d, hb)
    ∧ read_document hb d = Some doc
    ∧ keeps_document hb h1
    ∧ shows h1 (Ref r)
        (Result {[ "ansible_facts" :=
                     {[ "table_" +:+ table_name :=
                          extracted wanted (tables doc) ]} ]}).
Proof.
  intros Hheaders. unfold parse_tables_dict.
  do 4 (erewrite bind_returns; [|reflexivity]).
  rewrite !length_app. cbn [length]. rewrite <- !app_assoc. cbn [app].
  set (n := length h0).
  set (result := n + 1). set (tabs := n + 1 + 1).
  set (records := n + 1 + 1 + 1).
  set (name := "table_" +:+ table_name).
  set (h4 := h0 ++ [PyDict ∅; PyDict {[ "ansible_facts" := Ref n ]};
                    PyDict ∅; PyList []]).
  assert (length h4 = n + 4) as Hlen4.
  { unfold h4. rewrite length_app. done. }
  assert (h0 `prefix_of` h4) as Hpre4 by (by eexists).
  assert (h4 !! result = Some (PyDict {[ "ansible_facts" := Ref n ]})) as Hres4.
  { unfold h4, result. rewrite lookup_app_r by (fold n; lia).
    by replace (n + 1 - length h0) with 1 by (fold n; lia). }
  assert (h4 !! tabs = Some (PyDict ∅)) as Htab4.
  { unfold h4, tabs. rewrite lookup_app_r by (fold n; lia).
    by replace (n + 1 + 1 - length h0) with 2 by (fold n; lia). }
  assert (h4 !! records = Some (PyList [])) as Hrec4.
  { unfold h4, records. rewrite lookup_app_r by (fold n; lia).
    by replace (n + 1 + 1 + 1 - length h0) with 3 by (fold n; lia). }
  set (ha := <[tabs := PyDict {[ name := Ref records ]}]> h4).
  assert (dict_setitem tabs name (Ref records) h4 = (Return (), ha)) as Hset.
  { unfold dict_setitem.
    rewrite (bind_returns _ _ h4 _ h4 (load_returns _ _ _ Htab4)).
    unfold store, ha. by rewrite insert_empty. }
  rewrite (bind_returns _ _ h4 _ ha Hset).
  assert (h0 `prefix_of` ha) as Hprea.
  { apply same_but_prefix with tabs h4; [done|unfold tabs; lia|].
    apply same_but_store. }
  destruct (opens ha) as (d & hb & Hopen & Hpreab & Hdoc).
  unfold try_except_IOError. rewrite Hopen.
  assert (h0 `prefix_of` hb) as Hpreb by (by etrans).
  (* the store when the scan begins *)
  assert (headers < n) as Hheaders_lt.
  { unfold read_strs in Hheaders.
    destruct (h0 !! headers) eqn:Hh; [|done]. by apply lookup_lt_Some in Hh. }
  assert (scan_inv tabs name records headers wanted hb []) as Hinv.
  { split; [|split].
    - unfold read_strs in *. destruct (h0 !! headers) as [o|] eqn:Hh; [|done].
      by rewrite (prefix_lookup_Some _ _ _ _ Hh Hpreb).
    - apply prefix_lookup_Some with ha; [|done].
      apply list_lookup_insert_eq. lia.
    - exists records, []. split; [done|]. split; [|constructor].
      apply prefix_lookup_Some with ha; [|done].
      unfold ha. rewrite list_lookup_insert_ne by (unfold tabs, records; lia).
      done. }
  pose proof Hdoc as Hdoc0. unfold read_document in Hdoc.
  destruct (hb !! d) as [[| |ts| | |]|] eqn:Hd; try done.
  destruct (mapM (read_table hb) ts) as [tbls|] eqn:Hts; [|done].
  assert (tables doc = tbls) as Htbls by (injection Hdoc as <-; done).
  assert (get_tables d hb = (Return ts, hb)) as Hget.
  { unfold get_tables. by rewrite (bind_returns _ _ hb _ hb (load_returns _ _ _ Hd)). }
  rewrite (bind_returns _ _ hb _ hb Hget).
  destruct (heap_tables tabs name records headers wanted
              ltac:(unfold tabs, records; lia) ltac:(unfold records; lia)
              ts tbls hb [] None Hinv Hts)
    as (hc & keys' & Hloop & Hsame & Hinvc).
  rewrite (bind_returns _ _ hb _ hc Hloop).
  (* the result is given its facts *)
  assert (length ha = n + 4) as Hlena by (unfold ha; by rewrite length_insert).
  assert (n + 4 ≤ length hb) as Hlenb.
  { rewrite <- Hlena. by apply prefix_length. }
  assert (hc !! result = Some (PyDict {[ "ansible_facts" := Ref n ]})) as Hresc.
  { destruct Hsame as [_ Hsame].
    rewrite Hsame by (unfold result, records; lia).
    apply prefix_lookup_Some with ha; [|done].
    unfold ha. by rewrite list_lookup_insert_ne by (unfold tabs, result; lia). }
  set (h1 := <[result := PyDict {[ "ansible_facts" := Ref tabs ]}]> hc).
  assert (dict_setitem result "ansible_facts" (Ref tabs) hc =
            (Return (), h1)) as Hset1.
  { unfold dict_setitem.
    rewrite (bind_returns _ _ hc _ hc (load_returns _ _ _ Hresc)).
    unfold store, h1. by rewrite insert_singleton_eq. }
  rewrite (bind_returns _ _ hc _ h1 Hset1).
  assert (length hb ≤ length hc) as Hlenc by (by destruct Hsame).
  assert (same_but result hc h1) as Hsame1 by apply same_but_store.
  exists result, ha, d, hb, h1. split; [done|]. split_and!.
  - apply same_but_prefix with result hc; [|unfold result; lia|done].
    apply same_but_prefix with records hb; [done|unfold records; lia|done].
  - unfold result. lia.
  - unfold h1. rewrite length_insert. unfold result. lia.
  - done.
  - exact Hdoc0.
  - apply keeps_document_trans with hc.
    + by apply (scan_inv_keeps tabs name records headers wanted hb hc []).
    + by apply store_dict_keeps_document with {[ "ansible_facts" := Ref n ]}.
  - exists result, {[ "ansible_facts" := Ref tabs ]}. split; [done|]. split.
    { apply list_lookup_insert_eq. unfold result. lia. }
    intros key. destruct (decide (key = "ansible_facts")) as [->|Hkey].
    2: { rewrite !lookup_singleton_ne by done. constructor. }
    rewrite !lookup_singleton_eq. constructor.
    destruct Hinvc as (_ & Htabc & l & items & Hl & Hitems & Hshown).
    injection Hl as <-.
    exists tabs, {[ name := Ref records ]}. split; [done|]. split.
    { unfold h1. by rewrite list_lookup_insert_ne by (unfold tabs, result; lia). }
    intros key. destruct (decide (key = name)) as [->|Hkey].
    2: { rewrite !lookup_singleton_ne by done. constructor. }
    rewrite !lookup_singleton_eq. constructor.
    exists records, items. split; [done|]. split.
    { unfold h1. by rewrite list_lookup_insert_ne by (unfold records, result; lia). }
    rewrite <- Htbls in Hshown. simpl in Hshown.
    eapply Forall2_impl; [exact Hshown|]. intros v rd (x & -> & Hx).
    exists x. split; [done|]. unfold h1.
    rewrite list_lookup_insert_ne; [done|]. intros <-.
    rewrite Hresc in Hx. injection Hx as Hx.
    apply (f_equal (lookup "ansible_facts")) in Hx.
    rewrite lookup_singleton_eq, lookup_fmap in Hx.
    by destruct (rd !! "ansible_facts").
Qed.

End StoreCall.

(** ** The sample loader *)

Section NewObjects.

Import Heap.

Context {A : Type} (new : A → run nat) (rd : heap → nat → option A).

Hypothesis new_reads : ∀ a h,
  ∃ l h', new a h = (Return l, h') ∧ h `prefix_of` h' ∧ rd h' l = Some a.
Hypothesis rd_prefix : ∀ h h' l a,
  h `prefix_of` h' → rd h l = Some a → rd h' l = Some a.

(** Making the objects of a list one after the other. *)
Lemma mapM_new_reads xs : ∀ h,
  ∃ ls h', mapM new xs h = (Return ls, h')
           ∧ h `prefix_of` h' ∧ mapM (rd h') ls = Some xs.
Proof.
  induction xs as [|a xs IH]; intros h.
  - by exists [], h.
  - destruct (new_reads a h) as (l & h1 & Hnew & Hpre1 & Hl).
    destruct (IH h1) as (ls & h2 & Hrest & Hpre2 & Hls).
    exists (l :: ls), h2. split; [|split].
    + change (mapM new (a :: xs))
        with (y ← new a; k ← mapM new xs; mret (y :: k)).
      rewrite (bind_returns _ _ h _ h1 Hnew).
      by rewrite (bind_returns _ _ h1 _ h2 Hrest).
    + by etrans.
    + apply mapM_Some. constructor; [by apply rd_prefix with h1|].
      by apply mapM_Some.
Qed.

End NewObjects.

Section NewDocument.

Import Heap.

Lemma alloc_prefix (h : heap) (o : pyobj) : h `prefix_of` h ++ [o].
Proof. by eexists. Qed.

Lemma new_cell_reads c h :
  ∃ l h', new_cell c h = (Return l, h') ∧ h `prefix_of` h'
          ∧ read_cell h' l = Some c.
Proof.
  exists (length h), (h ++ [PyCell (text c)]). split; [done|].
  split; [apply alloc_prefix|]. unfold read_cell.
  rewrite lookup_app_r, Nat.sub_diag by lia. by destruct c.
Qed.

Lemma new_row_reads r h :
  ∃ l h', new_row r h = (Return l, h') ∧ h `prefix_of` h'
          ∧ read_row h' l = Some r.
Proof.
  destruct (mapM_new_reads new_cell read_cell new_cell_reads
              (λ h h' l a Hpre, read_cell_keeps h h' l a
                                  (prefix_keeps_document h h' Hpre))
              (cells r) h) as (cs & h1 & Hcells & Hpre & Hread).
  exists (length h1), (h1 ++ [PyRow cs]). split; [|split].
  - unfold new_row. by rewrite (bind_returns _ _ h _ h1 Hcells).
  - etrans; [done|apply alloc_prefix].
  - unfold read_row. rewrite lookup_app_r, Nat.sub_diag by lia. simpl.
    rewrite (mapM_read_keeps read_cell h1 _ cs (cells r)); [by destruct r| |done].
    intros l x. apply read_cell_keeps, prefix_keeps_document, alloc_prefix.
Qed.

Lemma new_table_reads t h :
  ∃ l h', new_table t h = (Return l, h') ∧ h `prefix_of` h'
          ∧ read_table h' l = Some t.
Proof.
  destruct (mapM_new_reads new_row read_row new_row_reads
              (λ h h' l a Hpre, read_row_keeps h h' l a
                                  (prefix_keeps_document h h' Hpre))
              (rows t) h) as (rs & h1 & Hrows & Hpre & Hread).
  exists (length h1), (h1 ++ [PyTable rs]). split; [|split].
  - unfold new_table. by rewrite (bind_returns _ _ h _ h1 Hrows).
  - etrans; [done|apply alloc_prefix].
  - unfold read_table. rewrite lookup_app_r, Nat.sub_diag by lia. simpl.
    rewrite (mapM_read_keeps read_row h1 _ rs (rows t)); [by destruct t| |done].
    intros l x. apply read_row_keeps, prefix_keeps_document, alloc_prefix.
Qed.

(** The loader puts a document into the store that reads as the one
    it was made from, and changes nothing else. *)
Lemma new_document_reads doc h :
  ∃ d h', new_document doc h = (Return d, h') ∧ h `prefix_of` h'
          ∧ read_document h' d = Some doc.
Proof.
  destruct (mapM_new_reads new_table read_table new_table_reads
              (λ h h' l a Hpre, read_table_keeps h h' l a
                                  (prefix_keeps_document h h' Hpre))
              (tables doc) h) as (ts & h1 & Htables & Hpre & Hread).
  exists (length h1), (h1 ++ [PyDocument ts]). split; [|split].
  - unfold new_document. by rewrite (bind_returns _ _ h _ h1 Htables).
  - etrans; [done|apply alloc_prefix].
  - unfold read_document. rewrite lookup_app_r, Nat.sub_diag by lia. simpl.
    rewrite (mapM_read_keeps read_table h1 _ ts (tables doc));
      [by destruct doc| |done].
    intros l x. apply read_table_keeps, prefix_keeps_document, alloc_prefix.
Qed.

End NewDocument.

(** C9. Two invocations on the same input, the second run in the store
    that the first has left, return values that show the same result,
    the one the scan computes from the tables, the name and the
    headers: whatever the one shows, the other shows. Each returns a
    dictionary of its own. Neither changes an object that was there
    before it began, so the list of headers, anything else in the
    store and the result of the first call are as they were; and the
    objects of the documents that were opened are, at the end, as they
    were when opened. *)
Theorem invocations_agree_and_change_nothing
    (docx_Document : string → Heap.run nat) input_file table_name headers
    wanted doc h0 :
  Heap.read_strs h0 headers = Some wanted →
  (∀ h, ∃ d h', docx_Document input_file h = (Return d, h')
                ∧ h `prefix_of` h' ∧ Heap.read_document h' d = Some doc) →
  ∃ r1 h1 r2 h2 response,
    Heap.parse_tables_dict docx_Document input_file table_name headers h0 =
      (Return (0%Z, Heap.Ref r1), h1)
    ∧ Heap.parse_tables_dict docx_Document input_file table_name headers h1 =
        (Return (0%Z, Heap.Ref r2), h2)
    ∧ parse_tables_dict (λ _, Return doc) input_file table_name wanted =
        Return (0%Z, response)
    ∧ Heap.shows h2 (Heap.Ref r1) response
    ∧ Heap.shows h2 (Heap.Ref r2) response
    ∧ (∀ response', Heap.shows h2 (Heap.Ref r1) response'
                    ↔ Heap.shows h2 (Heap.Ref r2) response')
    ∧ r1 ≠ r2
    ∧ h0 `prefix_of` h1
    ∧ h1 `prefix_of` h2
    ∧ ∃ ha1 d1 hb1 ha2 d2 hb2,
        docx_Document input_file ha1 = (Return d1, hb1)
        ∧ docx_Document input_file ha2 = (Return d2, hb2)
        ∧ Heap.keeps_document hb1 h2
        ∧ Heap.keeps_document hb2 h2
        ∧ Heap.read_document h2 d1 = Some doc
        ∧ Heap.read_document h2 d2 = Some doc.
Proof.
  intros Hheaders Hopens.
  destruct (heap_call docx_Document input_file table_name headers wanted doc
              Hopens h0 Hheaders)
    as (r1 & ha1 & d1 & hb1 & h1 & Hcall1 & Hpre1 & Hr1 & Hopen1 & Hdoc1
        & Hkeep1 & Hshow1).
  assert (Heap.read_strs h1 headers = Some wanted) as Hheaders1.
  { unfold Heap.read_strs in *.
    destruct (h0 !! headers) as [o|] eqn:Hh; [|done].
    by rewrite (prefix_lookup_Some _ _ _ _ Hh Hpre1). }
  destruct (heap_call docx_Document input_file table_name headers wanted doc
              Hopens h1 Hheaders1)
    as (r2 & ha2 & d2 & hb2 & h2 & Hcall2 & Hpre2 & Hr2 & Hopen2 & Hdoc2
        & Hkeep2 & Hshow2).
  pose proof (shows_prefix h1 h2 _ _ Hpre2 Hshow1) as Hshow12.
  exists r1, h1, r2, h2. eexists.
  split; [done|]. split; [done|]. split.
  { rewrite (parse_tables_dict_opened (λ _, Return doc) _ _ _ doc eq_refl).
    reflexivity. }
  split; [done|]. split; [done|]. split.
  { intros response'. split; intros Hshow.
    - by rewrite (shows_unique _ _ _ _ Hshow Hshow12).
    - by rewrite (shows_unique _ _ _ _ Hshow Hshow2). }
  split; [lia|]. split; [done|]. split; [done|].
  assert (Heap.keeps_document hb1 h2) as Hkeep12.
  { eapply keeps_document_trans; [exact Hkeep1|].
    by apply prefix_keeps_document. }
  exists ha1, d1, hb1, ha2, d2, hb2. repeat split; try done.
  - by apply read_document_keeps with hb1.
  - by apply read_document_keeps with hb2.
Qed.

Lemma invocations_agree_and_change_nothing_witness :
  ∃ r1 h1 r2 h2 response,
    Heap.parse_tables_dict fresh_docx "test_document.docx" "routes" 0
      sample_heap = (Return (0%Z, Heap.Ref r1), h1)
    ∧ Heap.parse_tables_dict fresh_docx "test_document.docx" "routes" 0 h1 =
        (Return (0%Z, Heap.Ref r2), h2)
    ∧ parse_tables_dict (λ _, Return test_document) "test_document.docx"
        "routes" ["NextHop"; "Destination"] = Return (0%Z, response)
    ∧ Heap.shows h2 (Heap.Ref r1) response
    ∧ Heap.shows h2 (Heap.Ref r2) response
    ∧ (∀ response', Heap.shows h2 (Heap.Ref r1) response'
                    ↔ Heap.shows h2 (Heap.Ref r2) response')
    ∧ r1 ≠ r2
    ∧ sample_heap `prefix_of` h1
    ∧ h1 `prefix_of` h2
    ∧ ∃ ha1 d1 hb1 ha2 d2 hb2,
        fresh_docx "test_document.docx" ha1 = (Return d1, hb1)
        ∧ fresh_docx "test_document.docx" ha2 = (Return d2, hb2)
        ∧ Heap.keeps_document hb1 h2
        ∧ Heap.keeps_document hb2 h2
        ∧ Heap.read_document h2 d1 = Some test_document
        ∧ Heap.read_document h2 d2 = Some test_document.
Proof.
  apply (invocations_agree_and_change_nothing fresh_docx "test_document.docx"
           "routes" 0 ["NextHop"; "Destination"] test_document sample_heap).
  - reflexivity.
  - intros h. apply new_document_reads.
Defined.

(** C10. The output follows the document: it begins with the records
    of the tables before a selected table, continues with one record
    for each data row of that table in the order of the rows, and ends
    with the records of the tables after it. *)
Theorem records_follow_document_order docx_Document input_file table_name
    headers doc before t after header_row data_rows :
  docx_Document input_file = Return doc →
  tables doc = before ++ t :: after →
  rows t = header_row :: data_rows →
  list_to_set headers ⊆@{gset string} list_to_set (cell_texts header_row) →
  ∃ output,
    parse_tables_dict docx_Document input_file table_name headers =
      Return (facts_result table_name output)
    ∧ take (length (extracted headers before)) output = extracted headers before
    ∧ (∀ j row, data_rows !! j = Some row →
         output !! (length (extracted headers before) + j) =
           Some (dict_zip (cell_texts header_row) (cell_texts row)))
    ∧ drop (length (extracted headers before) + length data_rows) output =
        extracted headers after.
Proof.
  intros Hopen Hts Hrows Hsub.
  assert (table_records headers t =
            (λ row, dict_zip (cell_texts header_row) (cell_texts row))
              <$> data_rows) as Ht.
  { unfold table_records. rewrite Hrows.
    apply issubset_spec in Hsub. by rewrite Hsub. }
  eexists. split; [by apply parse_tables_dict_around with doc|].
  rewrite Ht. split; [|split].
  - by rewrite take_app_length.
  - intros j row Hrow. rewrite lookup_app_r by lia.
    replace (length (extracted headers before) + j
               - length (extracted headers before)) with j by lia.
    rewrite lookup_app_l.
    + by rewrite list_lookup_fmap, Hrow.
    + rewrite length_fmap. by apply lookup_lt_Some in Hrow.
  - rewrite drop_app_add'; [|done].
    rewrite drop_app_length'; [done|]. by rewrite length_fmap.
Qed.

Lemma records_follow_document_order_witness :
  ∃ output,
    parse_tables_dict test_docx "test_document.docx" "routes"
      ["Destination"; "NextHop"] = Return (facts_result "routes" output)
    ∧ take (length (extracted ["Destination"; "NextHop"] [routes; zones; no_rows]))
        output = extracted ["Destination"; "NextHop"] [routes; zones; no_rows]
    ∧ (∀ j row, [mk_row ["10"; "192.168.7.1"; "172.16.0.0/12"]] !! j = Some row →
         output !! (length (extracted ["Destination"; "NextHop"]
                              [routes; zones; no_rows]) + j) =
           Some (dict_zip (cell_texts (mk_row ["Metric"; "NextHop"; "Destination"]))
                   (cell_texts row)))
    ∧ drop (length (extracted ["Destination"; "NextHop"] [routes; zones; no_rows])
              + length [mk_row ["10"; "192.168.7.1"; "172.16.0.0/12"]]) output =
        extracted ["Destination"; "NextHop"] [ragged].
Proof.
  apply (records_follow_document_order test_docx "test_document.docx" "routes"
           ["Destination"; "NextHop"] test_document
           [routes; zones; no_rows] routes_with_metric [ragged]
           (mk_row ["Metric"; "NextHop"; "Destination"])
           [mk_row ["10"; "192.168.7.1"; "172.16.0.0/12"]]).
  - reflexivity.
  - reflexivity.
  - reflexivity.
  - headers_among_keys.
Defined.

(** C8, counterexample. The constructor runs before the library check,
    so an invocation that lacks its required parameters is ended by the
    framework, with the framework's message, although python-docx is
    absent too. *)
Lemma parameters_checked_before_library :
  main false test_docx (checking_required ∅) =
    Return (fail_json
              {[ "msg" := VStr "missing required arguments: src, name, headers" ]})
  ∧ main false test_docx (checking_required ∅)
      ≠ Return (fail_json missing_library).
Proof.
  split; [vm_compute; reflexivity|].
  intros Hmain. vm_compute in Hmain. discriminate Hmain.
Qed.

(** C8, as the module has it. Once the framework's constructor has
    accepted the parameters, an absent python-docx ends the invocation
    with the missing-library message, whatever the parameters are and
    whatever opening a document would have done: neither is touched. *)
Theorem missing_library_reported docx_Document AnsibleModule params :
  AnsibleModule module_args false = inr params →
  main false docx_Document AnsibleModule = Return (fail_json missing_library).
Proof. intros Hmodule. unfold main. by rewrite Hmodule. Qed.

Lemma missing_library_reported_witness :
  checking_required sample_params module_args false = inr sample_params
  ∧ main false test_docx (checking_required sample_params) =
      Return (fail_json missing_library).
Proof.
  split; [vm_compute; reflexivity|].
  apply (missing_library_reported test_docx (checking_required sample_params)
           sample_params).
  vm_compute. reflexivity.
Defined.

(** ** Further properties of the entry point *)

(** X1. An invocation whose document cannot be read ends in
    [fail_json]: the message of [parse_tables_dict] is passed under
    [message], [facts_json] is still the empty string and [changed] is
    false. No [msg] keyword is passed. *)
Theorem unreadable_document_fails_invocation docx_Document AnsibleModule
    params src name headers :
  AnsibleModule module_args false = inr params →
  params !! "src" = Some (VStr src) →
  params !! "name" = Some (VStr name) →
  params !! "headers" = Some (VList headers) →
  docx_Document src = Raise IOError →
  ∃ kwargs,
    main true docx_Document AnsibleModule = Return (fail_json kwargs)
    ∧ kwargs !! "message" = Some (VStr ("IOError on input file: " +:+ src))
    ∧ kwargs !! "facts_json" = Some (VStr EmptyString)
    ∧ kwargs !! "changed" = Some (VBool false)
    ∧ kwargs !! "msg" = None.
Proof.
  intros Hmodule Hsrc Hname Hheaders Hopen. eexists. split.
  - by apply main_unreadable_document with params name headers.
  - by repeat split.
Qed.

Lemma unreadable_document_fails_invocation_witness :
  ∃ kwargs,
    main true test_docx
      (checking_required (<["src" := VStr "missing.docx"]> sample_params)) =
      Return (fail_json kwargs)
    ∧ kwargs !! "message" = Some (VStr ("IOError on input file: " +:+ "missing.docx"))
    ∧ kwargs !! "facts_json" = Some (VStr EmptyString)
    ∧ kwargs !! "changed" = Some (VBool false)
    ∧ kwargs !! "msg" = None.
Proof.
  apply (unreadable_document_fails_invocation test_docx
           (checking_required (<["src" := VStr "missing.docx"]> sample_params))
           (<["src" := VStr "missing.docx"]> sample_params)
           "missing.docx" "routes" ["Destination"; "NextHop"]);
    vm_compute; reflexivity.
Defined.

(** X2. An invocation whose document opens ends in [exit_json] with the
    result of [parse_tables_dict] under [facts_json], the message
    [Done] and [changed] false. *)
Theorem readable_document_ends_done docx_Document AnsibleModule
    params src name headers doc :
  AnsibleModule module_args false = inr params →
  params !! "src" = Some (VStr src) →
  params !! "name" = Some (VStr name) →
  params !! "headers" = Some (VList headers) →
  docx_Document src = Return doc →
  ∃ result,
    parse_tables_dict docx_Document src name headers =
      Return (0%Z, Result result)
    ∧ main true docx_Document AnsibleModule =
        Return (exit_json {[ "changed" := VBool false;
                             "facts_json" := VResult result;
                             "message" := VStr "Done" ]}).
Proof.
  intros Hmodule Hsrc Hname Hheaders Hopen. eexists. split.
  - by apply parse_tables_dict_opened.
  - by apply main_done with params src.
Qed.

Lemma readable_document_ends_done_witness :
  ∃ result,
    parse_tables_dict test_docx "test_document.docx" "routes"
      ["Destination"; "NextHop"] = Return (0%Z, Result result)
    ∧ main true test_docx (checking_required sample_params) =
        Return (exit_json {[ "changed" := VBool false;
                             "facts_json" := VResult result;
                             "message" := VStr "Done" ]}).
Proof.
  apply (readable_document_ends_done test_docx
           (checking_required sample_params) sample_params
           "test_document.docx" "routes" ["Destination"; "NextHop"]
           test_document);
    vm_compute; reflexivity.
Defined.

(** X3. Only IOError is caught. Any other exception raised while the
    document is opened leaves [parse_tables_dict], and then [main],
    uncaught: the invocation ends with neither [fail_json] nor
    [exit_json]. *)
Theorem other_exceptions_escape docx_Document AnsibleModule
    params src name headers e :
  AnsibleModule module_args false = inr params →
  params !! "src" = Some (VStr src) →
  params !! "name" = Some (VStr name) →
  params !! "headers" = Some (VList headers) →
  docx_Document src = Raise e →
  e ≠ IOError →
  parse_tables_dict docx_Document src name headers = Raise e
  ∧ main true docx_Document AnsibleModule = Raise e.
Proof.
  intros Hmodule Hsrc Hname Hheaders Hopen He.
  assert (parse_tables_dict docx_Document src name headers = Raise e) as Hparse.
  { unfold parse_tables_dict. rewrite Hopen. by destruct e. }
  split; [done|].
  rewrite (main_calls_parse_tables_dict docx_Document AnsibleModule params
             src name headers) by done.
  by rewrite Hparse.
Qed.

Lemma other_exceptions_escape_witness :
  parse_tables_dict broken_docx "test_document.docx" "routes"
    ["Destination"; "NextHop"] = Raise (OtherError "PackageNotFoundError")
  ∧ main true broken_docx (checking_required sample_params) =
      Raise (OtherError "PackageNotFoundError").
Proof.
  apply (other_exceptions_escape broken_docx (checking_required sample_params)
           sample_params "test_document.docx" "routes"
           ["Destination"; "NextHop"] (OtherError "PackageNotFoundError"));
    try (vm_compute; reflexivity).
  discriminate.
Defined.

(** X4. The return code tells the two ways of returning apart: a call
    that returns gives code 0 with the facts of a document that opened,
    or code 1 with a message after an IOError; it gives no other code,
    and never a code 0 with a message or a code 1 with facts. *)
Theorem return_code_tells_response docx_Document input_file table_name headers
    ret_code response :
  parse_tables_dict docx_Document input_file table_name headers =
    Return (ret_code, response) →
  (ret_code = 0%Z
   ∧ (∃ doc, docx_Document input_file = Return doc)
   ∧ ∃ result, response = Result result)
  ∨ (ret_code = 1%Z
     ∧ docx_Document input_file = Raise IOError
     ∧ response = Message ("IOError on input file: " +:+ input_file)).
Proof.
  intros Hcall. destruct (docx_Document input_file) as [doc|e] eqn:Hopen.
  - rewrite (parse_tables_dict_opened _ _ _ _ _ Hopen) in Hcall.
    unfold facts_result in Hcall. injection Hcall as <- <-.
    left. split; [done|]. split; by eexists.
  - unfold parse_tables_dict in Hcall. rewrite Hopen in Hcall.
    destruct e; try discriminate Hcall.
    injection Hcall as <- <-. by right.
Qed.

Lemma return_code_tells_response_witness :
  (1%Z = 0%Z
   ∧ (∃ doc, test_docx "missing.docx" = Return doc)
   ∧ ∃ result, Message "IOError on input file: missing.docx" = Result result)
  ∨ (1%Z = 1%Z
     ∧ test_docx "missing.docx" = Raise IOError
     ∧ Message "IOError on input file: missing.docx" =
         Message ("IOError on input file: " +:+ "missing.docx")).
Proof.
  apply (return_code_tells_response test_docx "missing.docx" "routes"
           ["Destination"] 1%Z (Message "IOError on input file: missing.docx")).
  reflexivity.
Defined.

(** ** Further properties of the scan *)

(** Two header lists that pass the subset test on the same keys select
    the same records. *)
Lemma table_records_same_test headers headers' t :
  (∀ keys, issubset headers keys = issubset headers' keys) →
  table_records headers t = table_records headers' t.
Proof.
  intros Htest. unfold table_records.
  destruct (rows t) as [|header_row data_rows]; [done|]. by rewrite Htest.
Qed.

Lemma extracted_nothing headers ts :
  Forall (λ t, table_records headers t = []) ts →
  extracted headers ts = [].
Proof.
  induction 1 as [|t ts Ht _ IH]; [done|].
  by rewrite extracted_cons, Ht, IH.
Qed.

(** X5. When no table of the document has all the wanted headers in
    its first row, the call still succeeds, and the facts hold the name
    with an empty list. *)
Theorem no_table_selected_empty_list docx_Document input_file table_name
    headers doc :
  docx_Document input_file = Return doc →
  (∀ t header_row data_rows,
     t ∈ tables doc →
     rows t = header_row :: data_rows →
     ¬ list_to_set headers ⊆@{gset string} list_to_set (cell_texts header_row)) →
  parse_tables_dict docx_Document input_file table_name headers =
    Return (0%Z, Result {[ "ansible_facts" :=
                             {[ "table_" +:+ table_name := [] ]} ]}).
Proof.
  intros Hopen Hnone.
  rewrite (parse_tables_dict_opened _ _ _ _ _ Hopen).
  rewrite extracted_nothing; [done|].
  apply Forall_forall. intros t Ht. unfold table_records.
  destruct (rows t) as [|header_row data_rows] eqn:Hrows; [done|].
  destruct (issubset headers (cell_texts header_row)) eqn:Hsub; [|done].
  apply issubset_spec in Hsub. by destruct (Hnone t header_row data_rows).
Qed.

Lemma no_table_selected_empty_list_witness :
  parse_tables_dict test_docx "test_document.docx" "interfaces" ["Interface"] =
    Return (0%Z, Result {[ "ansible_facts" :=
                             {[ "table_" +:+ "interfaces" := [] ]} ]}).
Proof.
  apply (no_table_selected_empty_list test_docx "test_document.docx"
           "interfaces" ["Interface"] test_document).
  - reflexivity.
  - intros t header_row data_rows Ht Hrows Hsub.
    apply issubset_spec in Hsub.
    repeat (apply elem_of_cons in Ht as [->|Ht]);
      try (by apply elem_of_nil in Ht);
      try discriminate Hrows;
      injection Hrows as <- <-; vm_compute in Hsub; discriminate Hsub.
Defined.

(** X6. Scanning is additive over the sequence of tables: for a
    document whose tables are those of one document followed by those
    of another, the call returns the records of the first followed by
    the records of the second. What was read in one table does not
    reach into the next. *)
Theorem records_of_joined_documents docx_Document file1 file2 file12
    table_name headers doc1 doc2 doc12 :
  docx_Document file1 = Return doc1 →
  docx_Document file2 = Return doc2 →
  docx_Document file12 = Return doc12 →
  tables doc12 = tables doc1 ++ tables doc2 →
  ∃ records1 records2,
    records_of table_name
      (parse_tables_dict docx_Document file1 table_name headers) = Some records1
    ∧ records_of table_name
        (parse_tables_dict docx_Document file2 table_name headers) = Some records2
    ∧ records_of table_name
        (parse_tables_dict docx_Document file12 table_name headers) =
        Some (records1 ++ records2).
Proof.
  intros Hopen1 Hopen2 Hopen12 Hjoin.
  exists (extracted headers (tables doc1)), (extracted headers (tables doc2)).
  rewrite (parse_tables_dict_opened _ _ _ _ _ Hopen1).
  rewrite (parse_tables_dict_opened _ _ _ _ _ Hopen2).
  rewrite (parse_tables_dict_opened _ _ _ _ _ Hopen12).
  rewrite Hjoin, extracted_app. unfold records_of, facts_result. simpl.
  rewrite !lookup_singleton_eq. simpl. by rewrite !lookup_singleton_eq.
Qed.

Lemma records_of_joined_documents_witness :
  ∃ records1 records2,
    records_of "routes"
      (parse_tables_dict shelf_docx "first.docx" "routes" ["NextHop"]) =
      Some records1
    ∧ records_of "routes"
        (parse_tables_dict shelf_docx "second.docx" "routes" ["NextHop"]) =
        Some records2
    ∧ records_of "routes"
        (parse_tables_dict shelf_docx "both.docx" "routes" ["NextHop"]) =
        Some (records1 ++ records2).
Proof.
  apply (records_of_joined_documents shelf_docx "first.docx" "second.docx"
           "both.docx" "routes" ["NextHop"]
           {| tables := [routes; zones] |}
           {| tables := [no_rows; routes_with_metric; ragged] |}
           test_document);
    reflexivity.
Defined.

(** X7. The wanted headers count as a set: lists with the same
    elements, in any order and with any repetitions, give the same
    value of the call, on every path of it. *)
Theorem headers_count_as_a_set docx_Document input_file table_name
    headers headers' :
  list_to_set headers =@{gset string} list_to_set headers' →
  parse_tables_dict docx_Document input_file table_name headers =
    parse_tables_dict docx_Document input_file table_name headers'.
Proof.
  intros Hsame.
  destruct (docx_Document input_file) as [doc|e] eqn:Hopen.
  - rewrite !(parse_tables_dict_opened _ _ _ _ _ Hopen). f_equal. f_equal.
    unfold extracted. induction (tables doc) as [|t ts IH]; [done|].
    change (table_records headers t ++ ts ≫= table_records headers =
            table_records headers' t ++ ts ≫= table_records headers').
    rewrite IH. f_equal. apply table_records_same_test.
    intros keys. unfold issubset. by rewrite Hsame.
  - unfold parse_tables_dict. by rewrite Hopen.
Qed.

Lemma headers_count_as_a_set_witness :
  parse_tables_dict test_docx "test_document.docx" "routes"
    ["Destination"; "NextHop"] =
  parse_tables_dict test_docx "test_document.docx" "routes"
    ["NextHop"; "Destination"; "NextHop"].
Proof.
  apply (headers_count_as_a_set test_docx "test_document.docx" "routes"
           ["Destination"; "NextHop"] ["NextHop"; "Destination"; "NextHop"]).
  vm_compute. reflexivity.
Defined.

(** X8. Asking for more headers never adds records: when every header
    of one list is in a second list, the records returned for the
    second list are, in order, among those returned for the first. *)
Theorem more_headers_fewer_records docx_Document input_file table_name
    headers headers' doc :
  docx_Document input_file = Return doc →
  list_to_set headers ⊆@{gset string} list_to_set headers' →
  ∃ records records',
    parse_tables_dict docx_Document input_file table_name headers =
      Return (facts_result table_name records)
    ∧ parse_tables_dict docx_Document input_file table_name headers' =
        Return (facts_result table_name records')
    ∧ records' `sublist_of` records.
Proof.
  intros Hopen Hmore.
  exists (extracted headers (tables doc)), (extracted headers' (tables doc)).
  rewrite !(parse_tables_dict_opened _ _ _ _ _ Hopen). do 2 (split; [done|]).
  induction (tables doc) as [|t ts IH]; [done|].
  rewrite !extracted_cons. apply sublist_app; [|done].
  unfold table_records. destruct (rows t) as [|header_row data_rows]; [done|].
  destruct (issubset headers' (cell_texts header_row)) eqn:Hsub';
    [|apply sublist_nil_l].
  assert (issubset headers (cell_texts header_row) = true) as ->; [|done].
  apply issubset_spec. apply issubset_spec in Hsub'. by etrans.
Qed.

Lemma more_headers_fewer_records_witness :
  ∃ records records',
    parse_tables_dict test_docx "test_document.docx" "routes" ["NextHop"] =
      Return (facts_result "routes" records)
    ∧ parse_tables_dict test_docx "test_document.docx" "routes"
        ["NextHop"; "Metric"] = Return (facts_result "routes" records')
    ∧ records' `sublist_of` records.
Proof.
  apply (more_headers_fewer_records test_docx "test_document.docx" "routes"
           ["NextHop"] ["NextHop"; "Metric"] test_document).
  - reflexivity.
  - apply issubset_spec. vm_compute. reflexivity.
Defined.

(** X9. When the header texts of a selected table are pairwise
    different and a data row has as many cells as there are headers,
    the record of the row gives the row back: looking up the headers in
    turn yields the cells in turn, and the record has one entry for
    each column. *)
Theorem record_gives_back_row ansible_table_name headers f i row keys records :
  i ≠ 0 →
  l_keys f = Some keys →
  l_tables f !! ansible_table_name = Some records →
  list_to_set headers ⊆@{gset string} list_to_set keys →
  NoDup keys →
  length keys = length (cells row) →
  ∃ row_data,
    row_body ansible_table_name headers f i row =
      Return (with_output ansible_table_name f (Some keys)
                (records ++ [row_data]))
    ∧ (λ k, row_data !! k) <$> keys = Some <$> cell_texts row
    ∧ size row_data = length keys.
Proof.
  intros Hi Hkeys Hout Hsub Hdistinct Hlen.
  assert (length keys = length (cell_texts row)) as Hlen'.
  { unfold cell_texts. by rewrite length_fmap. }
  exists (dict_zip keys (cell_texts row)). split; [|split].
  - rewrite (row_body_data _ _ f i row keys records) by done.
    apply issubset_spec in Hsub. by rewrite Hsub.
  - apply list_eq. intros j. rewrite !list_lookup_fmap.
    destruct (keys !! j) as [k|] eqn:Hk;
      destruct (cell_texts row !! j) as [v|] eqn:Hv; simpl.
    + f_equal. apply dict_zip_last with j; [done..|].
      intros j' Hlt _ Hk'.
      pose proof (NoDup_lookup _ _ _ _ Hdistinct Hk Hk'). lia.
    + apply lookup_lt_Some in Hk. apply lookup_ge_None in Hv. lia.
    + apply lookup_lt_Some in Hv. apply lookup_ge_None in Hk. lia.
    + done.
  - rewrite <- (size_dom (D:=gset string)), dict_zip_dom.
    rewrite <- Hlen', Nat.min_id, firstn_all.
    by apply size_list_to_set.
Qed.

Lemma record_gives_back_row_witness :
  ∃ row_data,
    row_body "table_routes" ["NextHop"] sample_frame 2
        (mk_row ["0.0.0.0/0"; "192.168.1.254"]) =
      Return (with_output "table_routes" sample_frame
                (Some ["Destination"; "NextHop"]) ([] ++ [row_data]))
    ∧ (λ k, row_data !! k) <$> ["Destination"; "NextHop"] =
        Some <$> cell_texts (mk_row ["0.0.0.0/0"; "192.168.1.254"])
    ∧ size row_data = length ["Destination"; "NextHop"].
Proof.
  apply (record_gives_back_row "table_routes" ["NextHop"] sample_frame 2
           (mk_row ["0.0.0.0/0"; "192.168.1.254"])
           ["Destination"; "NextHop"] []).
  - lia.
  - reflexivity.
  - reflexivity.
  - headers_among_keys.
  - apply bool_decide_eq_true_1 with (NoDup_dec _). vm_compute. reflexivity.
  - reflexivity.
Defined.

(** X10. Every record returned for a document whose data rows are at
    least as long as their header rows has all the wanted headers among
    its keys. *)
Theorem records_hold_wanted_headers docx_Document input_file table_name
    headers doc :
  docx_Document input_file = Return doc →
  (∀ t header_row data_rows row,
     t ∈ tables doc →
     rows t = header_row :: data_rows →
     row ∈ data_rows →
     length (cells header_row) ≤ length (cells row)) →
  ∃ output,
    parse_tables_dict docx_Document input_file table_name headers =
      Return (facts_result table_name output)
    ∧ ∀ row_data h, row_data ∈ output → h ∈ headers → is_Some (row_data !! h).
Proof.
  intros Hopen Hfull. exists (extracted headers (tables doc)).
  split; [by apply parse_tables_dict_opened|].
  intros row_data h Hrec Hh.
  apply list_elem_of_bind in Hrec as (t & Hrec & Ht).
  unfold table_records in Hrec.
  destruct (rows t) as [|header_row data_rows] eqn:Hrows;
    [by apply elem_of_nil in Hrec|].
  destruct (issubset headers (cell_texts header_row)) eqn:Hsub;
    [|by apply elem_of_nil in Hrec].
  apply list_elem_of_fmap in Hrec as (row & -> & Hrow).
  apply issubset_spec in Hsub.
  pose proof (Hfull t header_row data_rows row Ht Hrows Hrow) as Hlen.
  apply elem_of_dom. rewrite dict_zip_dom.
  unfold cell_texts at 1 2. rewrite !length_fmap.
  rewrite Nat.min_l by done.
  rewrite <- (length_fmap text (cells header_row)), firstn_all.
  apply Hsub. by apply elem_of_list_to_set.
Qed.

Lemma records_hold_wanted_headers_witness :
  ∃ output,
    parse_tables_dict regular_docx "regular.docx" "routes"
      ["Destination"; "NextHop"] = Return (facts_result "routes" output)
    ∧ ∀ row_data h, row_data ∈ output → h ∈ ["Destination"; "NextHop"] →
        is_Some (row_data !! h).
Proof.
  apply (records_hold_wanted_headers regular_docx "regular.docx" "routes"
           ["Destination"; "NextHop"]
           {| tables := [routes; zones; no_rows; routes_with_metric] |}).
  - reflexivity.
  - intros t header_row data_rows row Ht Hrows Hrow.
    repeat (apply elem_of_cons in Ht as [->|Ht]);
      try (by apply elem_of_nil in Ht);
      try discriminate Hrows;
      injection Hrows as <- <-;
      repeat (apply elem_of_cons in Hrow as [->|Hrow]);
      try (by apply elem_of_nil in Hrow);
      simpl; lia.
Defined.

(** X11. The facts of a call are set under its own name only: the
    result holds a list under the name that was given and none under
    any other name. *)
Theorem facts_under_own_name_only docx_Document input_file table_name
    other_name headers doc :
  docx_Document input_file = Return doc →
  other_name ≠ table_name →
  (∃ records,
     records_of table_name
       (parse_tables_dict docx_Document input_file table_name headers) =
       Some records)
  ∧ records_of other_name
      (parse_tables_dict docx_Document input_file table_name headers) = None.
Proof.
  intros Hopen Hother.
  rewrite (parse_tables_dict_opened _ _ _ _ _ Hopen).
  unfold records_of, facts_result. rewrite lookup_singleton_eq. simpl. split.
  - eexists. apply lookup_singleton_eq.
  - apply lookup_singleton_ne. intros Hsame. apply Hother.
    simpl in Hsame. by injection Hsame.
Qed.

Lemma facts_under_own_name_only_witness :
  (∃ records,
     records_of "routes"
       (parse_tables_dict test_docx "test_document.docx" "routes" ["NextHop"]) =
       Some records)
  ∧ records_of "zones"
      (parse_tables_dict test_docx "test_document.docx" "routes" ["NextHop"]) =
      None.
Proof.
  apply (facts_under_own_name_only test_docx "test_document.docx" "routes"
           "zones" ["NextHop"] test_document).
  - reflexivity.
  - discriminate.
Defined.

(** X12. No invocation that the module ends reports a change: whether
    it ends for the missing library, for an unreadable document or with
    the facts, its keyword arguments never hold a true [changed]. *)
Theorem change_never_reported HAS_LIB docx_Document AnsibleModule params e :
  AnsibleModule module_args false = inr params →
  main HAS_LIB docx_Document AnsibleModule = Return e →
  kwargs_of e !! "changed" ≠ Some (VBool true).
Proof.
  intros Hmodule Hmain. unfold main in Hmain. rewrite Hmodule in Hmain.
  destruct HAS_LIB; simpl in Hmain.
  - destruct (getitem params "src" ≫= as_str) as [src|]; [|done].
    destruct (getitem params "name" ≫= as_str) as [name|]; [|done].
    destruct (getitem params "headers" ≫= as_list) as [headers|]; [|done].
    simpl in Hmain.
    destruct (parse_tables_dict docx_Document src name headers)
      as [[ret_code response]|]; [|done].
    simpl in Hmain.
    destruct (decide (ret_code = 1%Z)); injection Hmain as <-; done.
  - injection Hmain as <-. done.
Qed.

Lemma change_never_reported_witness :
  kwargs_of (fail_json missing_library) !! "changed" ≠ Some (VBool true).
Proof.
  apply (change_never_reported false test_docx
           (checking_required sample_params) sample_params
           (fail_json missing_library));
    vm_compute; reflexivity.
Defined.
